(** * seller.py: stock and price synchronisation, shallow embedding

    The Python module [seller.py] is embedded function by function.
    Python values that the code inspects dynamically are given a small
    value type, exceptions are an explicit outcome, and the two kinds of
    mutable state the program has (list objects shared through
    references, and the remote services) are threaded explicitly. *)

From Stdlib Require Import ZArith Ascii String Lia SpecFloat.
From stdpp Require Import base numbers list strings gmap.

Open Scope string_scope.
Open Scope list_scope.
Open Scope Z_scope.

(** ** Exceptions and outcomes *)

Inductive exn : Type :=
  | ValueError
  | TypeError
  | AttributeError
  | IndexError
  | OverflowError
  | EnvError
  | HTTPError
  | ReadTimeout
  | ConnectionError
  | OtherError.

(** [Ok a] is a normal return, [Err e] a raised exception.  [Fuel] is
    not a Python outcome: it marks a run of the model cut off while the
    [while True] loop of [get_offer_ids] was still turning. *)
Inductive result (A : Type) : Type :=
  | Ok (a : A)
  | Err (e : exn)
  | Fuel.

Arguments Ok {A} a.
Arguments Err {A} e.
Arguments Fuel {A}.

Definition is_Ok {A} (r : result A) : bool :=
  match r with Ok _ => true | _ => false end.

(** ** Python values held by a spreadsheet record

    [pandas.read_excel(...).to_dict(orient="records")] yields one dict
    per row.  A cell is text, a number (an integer or a float) or a
    boolean; [dict.get] of an absent key is [None].  Cells holding dates
    or times are not covered by this value type.  Text is kept as the UTF-8 bytes of the
    Python [str]; a float is kept as its sign, mantissa and exponent. *)

Inductive pyval : Type :=
  | PyStr (s : string)
  | PyInt (z : Z)
  | PyFloat (f : spec_float)
  | PyBool (b : bool)
  | PyNone.

(** *** [str(int)] *)

Definition digit_char (d : Z) : ascii :=
  ascii_of_nat (48 + Z.to_nat d).

Fixpoint str_digits (fuel : nat) (n : Z) (acc : string) : string :=
  match fuel with
  | O => acc
  | S fuel' =>
      let acc' := String (digit_char (n mod 10)) acc in
      if n <? 10 then acc' else str_digits fuel' (n / 10) acc'
  end.

(** Decimal text of a non-negative integer; [Z.log2 n + 1] exceeds the
    number of decimal digits of [n]. *)
Definition str_nonneg (n : Z) : string :=
  str_digits (S (Z.to_nat (Z.log2 n))) n "".

Definition str_of_Z (z : Z) : string :=
  if z <? 0 then String "-" (str_nonneg (- z)) else str_nonneg z.

(** [sys.int_info.default_max_str_digits]: the longest run of decimal
    digits that [str(int)] prints and that [int(str)] reads. *)
Definition int_max_str_digits : Z := 4300.

Definition is_digit (c : ascii) : bool :=
  let n := nat_of_ascii c in (48 <=? n)%nat && (n <=? 57)%nat.

Definition digit_val (c : ascii) : Z :=
  Z.of_nat (nat_of_ascii c) - 48.

(** *** [repr(float)]

    A float is an IEEE binary64 value in canonical form: for a finite
    non-zero one, [m * 2 ^ e] with [m < 2 ^ 53] and [-1074 ≤ e ≤ 971],
    and [2 ^ 52 ≤ m] unless [e = -1074].  [repr] prints the shortest
    decimal digit string that reads back as the same float, and the
    closest of these to the float. *)

(** The float is [R / S]; the reals that round to it lie between
    [(R - Mlo) / S] and [(R + Mhi) / S], ends included when the
    mantissa is even. *)
Definition fl_R (m : positive) (e : Z) : Z := 4 * Z.pos m * 2 ^ Z.max e 0.
Definition fl_S (e : Z) : Z := 4 * 2 ^ Z.max (- e) 0.
Definition fl_Mhi (e : Z) : Z := 2 * 2 ^ Z.max e 0.
Definition fl_Mlo (m : positive) (e : Z) : Z :=
  if (Z.pos m =? 2 ^ 52) && (-1074 <? e) then 2 ^ Z.max e 0 else 2 * 2 ^ Z.max e 0.

(** To compare [d * 10 ^ q] with [a / S], compare [scale_up q (d * S)]
    with [scale_dn q a]. *)
Definition scale_up (q x : Z) : Z := x * 10 ^ Z.max q 0.
Definition scale_dn (q x : Z) : Z := x * 10 ^ Z.max (- q) 0.

(** [10 ^ p ≤ R / S] *)
Definition ge_pow10 (R S p : Z) : bool := scale_up p S <=? scale_dn p R.

Fixpoint exp_down (fuel : nat) (R S p : Z) : Z :=
  if ge_pow10 R S p then p
  else match fuel with O => p | S fuel' => exp_down fuel' R S (p - 1) end.

Fixpoint exp_up (fuel : nat) (R S p : Z) : Z :=
  if ge_pow10 R S (p + 1)
  then match fuel with O => p | S fuel' => exp_up fuel' R S (p + 1) end
  else p.

(** The [p] with [10 ^ p ≤ R / S < 10 ^ (p + 1)], found from an
    estimate that is off by one at most. *)
Definition dec_exponent (R S : Z) : Z :=
  let est := (Z.log2 R - Z.log2 S) * 30103 / 100000 + 1 in
  exp_up 4 R S (exp_down 4 R S est).

(** The decimal with [k] digits to print for the float, if one reads
    back as the float: the multiple of [10 ^ q] just below the float,
    or the one just above, whichever reads back and is closer. *)
Definition repr_candidate (m : positive) (e : Z) (p k : Z) : option Z :=
  let R := fl_R m e in
  let S := fl_S e in
  let q := p - k + 1 in
  let lo := scale_dn q R / scale_up q S in
  let hi := lo + 1 in
  let L := scale_dn q (R - fl_Mlo m e) in
  let H := scale_dn q (R + fl_Mhi e) in
  let inside d :=
    let Y := scale_up q (d * S) in
    if Z.even (Z.pos m) then (L <=? Y) && (Y <=? H) else (L <? Y) && (Y <? H) in
  match inside lo, inside hi with
  | true, true =>
      let twice := 2 * scale_dn q R in
      let sum := scale_up q ((lo + hi) * S) in
      if twice <? sum then Some lo
      else if sum <? twice then Some hi
      else if Z.even lo then Some lo else Some hi
  | true, false => Some lo
  | false, true => Some hi
  | false, false => None
  end.

(** The digits and the exponent [q]: the float prints as [d * 10 ^ q]. *)
Fixpoint repr_shortest (fuel : nat) (m : positive) (e : Z) (p k : Z) : Z * Z :=
  match repr_candidate m e p k with
  | Some d => (d, p - k + 1)
  | None =>
      match fuel with
      | O => (scale_dn (p - k + 1) (fl_R m e) / scale_up (p - k + 1) (fl_S e), p - k + 1)
      | S fuel' => repr_shortest fuel' m e p (k + 1)
      end
  end.

Fixpoint strip_zeros_rev (l : list ascii) : list ascii :=
  match l with
  | c :: l' => if Ascii.eqb c "0" then strip_zeros_rev l' else l
  | [] => []
  end.

(** The digits without trailing zeros, and the position of the decimal
    point counted from the first digit. *)
Definition repr_digits (m : positive) (e : Z) : list ascii * Z :=
  let p := dec_exponent (fl_R m e) (fl_S e) in
  let '(d, q) := repr_shortest 16 m e p 1 in
  let ds := list_ascii_of_string (str_nonneg d) in
  (rev (strip_zeros_rev (rev ds)), Z.of_nat (length ds) + q).

Definition zeros (n : Z) : list ascii := replicate (Z.to_nat n) "0"%char.

(** Exponent notation: one digit, the others after a point, and an
    exponent of two digits at least. *)
Definition repr_exp_form (ds : list ascii) (decpt : Z) : list ascii :=
  let x := decpt - 1 in
  let mant :=
    match ds with
    | [] => []
    | [d] => [d]
    | d :: tl => d :: "."%char :: tl
    end in
  mant ++ ["e"%char; if x <? 0 then "-"%char else "+"%char]
       ++ (if Z.abs x <? 10 then ["0"%char] else [])
       ++ list_ascii_of_string (str_nonneg (Z.abs x)).

Definition repr_fixed_form (ds : list ascii) (decpt : Z) : list ascii :=
  if decpt <=? 0 then "0"%char :: "."%char :: zeros (- decpt) ++ ds
  else if decpt <? Z.of_nat (length ds)
  then take (Z.to_nat decpt) ds ++ "."%char :: drop (Z.to_nat decpt) ds
  else ds ++ zeros (decpt - Z.of_nat (length ds)) ++ ["."%char; "0"%char].

Definition repr_format (ds : list ascii) (decpt : Z) : list ascii :=
  if (decpt <=? -4) || (16 <? decpt) then repr_exp_form ds decpt
  else repr_fixed_form ds decpt.

Definition float_repr (f : spec_float) : string :=
  match f with
  | S754_nan => "nan"
  | S754_infinity s => if s then "-inf" else "inf"
  | S754_zero s => if s then "-0.0" else "0.0"
  | S754_finite s m e =>
      let '(ds, decpt) := repr_digits m e in
      string_of_list_ascii ((if s then ["-"%char] else []) ++ repr_format ds decpt)
  end.

(** [int(float)]: the value cut toward zero. *)
Definition float_trunc (f : spec_float) : result Z :=
  match f with
  | S754_zero _ => Ok 0
  | S754_infinity _ => Err OverflowError
  | S754_nan => Err ValueError
  | S754_finite s m e =>
      let a := if 0 <=? e then Z.pos m * 2 ^ e else Z.pos m / 2 ^ (- e) in
      Ok (if s then - a else a)
  end.

(** *** [str(v)] *)

(** The text of a value. *)
Definition str_text (v : pyval) : string :=
  match v with
  | PyStr s => s
  | PyInt z => str_of_Z z
  | PyFloat f => float_repr f
  | PyBool b => if b then "True" else "False"
  | PyNone => "None"
  end.

(** [str(v)]: an integer of more than [int_max_str_digits] digits is
    not printed. *)
Definition py_str (v : pyval) : result string :=
  match v with
  | PyInt z =>
      if int_max_str_digits <? Z.of_nat (String.length (str_nonneg (Z.abs z)))
      then Err ValueError
      else Ok (str_of_Z z)
  | _ => Ok (str_text v)
  end.

(** *** [int(str)]

    CPython first rewrites the text: a character below 127 is kept, a
    Unicode space becomes a blank, a Unicode decimal digit becomes the
    ASCII digit of its value, and at any other character the text is cut
    and ends with ["?"].  The result is read as an ASCII literal: C
    whitespace, an optional sign, digits that single underscores may
    separate, C whitespace.  More than [int_max_str_digits] digits are
    refused. *)

(** The code points of a text kept as UTF-8 bytes; a byte sequence that
    is not UTF-8 gives U+FFFD. *)
Fixpoint utf8_decode (bs : list Z) : list Z :=
  match bs with
  | [] => []
  | b0 :: r0 =>
      if b0 <? 128 then b0 :: utf8_decode r0
      else if b0 <? 192 then 65533 :: utf8_decode r0
      else if b0 <? 224 then
        match r0 with
        | b1 :: r1 => (b0 - 192) * 64 + (b1 - 128) :: utf8_decode r1
        | [] => [65533]
        end
      else if b0 <? 240 then
        match r0 with
        | b1 :: b2 :: r2 =>
            (b0 - 224) * 4096 + (b1 - 128) * 64 + (b2 - 128) :: utf8_decode r2
        | _ => [65533]
        end
      else
        match r0 with
        | b1 :: b2 :: b3 :: r3 =>
            (b0 - 240) * 262144 + (b1 - 128) * 4096 + (b2 - 128) * 64 + (b3 - 128)
              :: utf8_decode r3
        | _ => [65533]
        end
  end.

Definition code_points (s : string) : list Z :=
  utf8_decode (map (λ c, Z.of_nat (nat_of_ascii c)) (list_ascii_of_string s)).

(** [Py_UNICODE_ISSPACE] above 127. *)
Definition is_unicode_space (c : Z) : bool :=
  (c =? 133) || (c =? 160) || (c =? 5760) || ((8192 <=? c) && (c <=? 8202)) ||
  (c =? 8232) || (c =? 8233) || (c =? 8239) || (c =? 8287) || (c =? 12288).

(** The zero of every run of ten decimal digits above 127 (Unicode
    14.0, the character database of CPython 3.11). *)
Definition unicode_zeros : list Z :=
  [1632; 1776; 1984; 2406; 2534; 2662; 2790; 2918; 3046; 3174; 3302; 3430; 3558; 3664;
   3792; 3872; 4160; 4240; 6112; 6160; 6470; 6608; 6784; 6800; 6992; 7088; 7232; 7248;
   42528; 43216; 43264; 43472; 43504; 43600; 44016; 65296; 66720; 68912; 69734; 69872;
   69942; 70096; 70384; 70736; 70864; 71248; 71360; 71472; 71904; 72016; 72784; 73040;
   73120; 92768; 92864; 93008; 120782; 120792; 120802; 120812; 120822; 123200; 123632;
   125264; 130032].

(** [Py_UNICODE_TODECIMAL] above 127. *)
Definition unicode_decimal (c : Z) : option Z :=
  (λ z, c - z) <$> head (filter (λ z, z ≤ c < z + 10) unicode_zeros).

(** [_PyUnicode_TransformDecimalAndSpaceToASCII] *)
Fixpoint to_ascii_literal (cps : list Z) : list ascii :=
  match cps with
  | [] => []
  | c :: cps' =>
      if c <? 127 then ascii_of_nat (Z.to_nat c) :: to_ascii_literal cps'
      else if is_unicode_space c then " "%char :: to_ascii_literal cps'
      else
        match unicode_decimal c with
        | Some d => digit_char d :: to_ascii_literal cps'
        | None => ["?"%char]
        end
  end.

Definition int_normalize (s : string) : list ascii :=
  to_ascii_literal (code_points s).

(** [Py_ISSPACE] *)
Definition is_c_space (c : ascii) : bool :=
  let n := nat_of_ascii c in ((9 <=? n)%nat && (n <=? 13)%nat) || (n =? 32)%nat.

Fixpoint skip_space (l : list ascii) : list ascii :=
  match l with
  | c :: l' => if is_c_space c then skip_space l' else l
  | [] => []
  end.

(** The scan of digits and underscores: [prev_us] tells whether the
    character before was an underscore, [acc] holds the digits read. *)
Fixpoint scan_digits (prev_us : bool) (acc : list ascii) (l : list ascii)
    : option (list ascii * list ascii) :=
  match l with
  | c :: l' =>
      if is_digit c then scan_digits false (acc ++ [c]) l'
      else if Ascii.eqb c "_" then
        if prev_us then None else scan_digits true acc l'
      else if prev_us then None else Some (acc, l)
  | [] => if prev_us then None else Some (acc, [])
  end.

Definition digits_number (ds : list ascii) : Z :=
  fold_left (λ acc c, 10 * acc + digit_val c) ds 0.

(** [PyLong_FromString] in base 10. *)
Definition parse_literal (l : list ascii) : option Z :=
  let l1 := skip_space l in
  let '(negative, l2) :=
    match l1 with
    | c :: l' =>
        if Ascii.eqb c "+" then (false, l')
        else if Ascii.eqb c "-" then (true, l')
        else (false, l1)
    | [] => (false, [])
    end in
  match l2 with
  | [] => None
  | c :: _ =>
      if Ascii.eqb c "_" then None
      else
        match scan_digits false [] l2 with
        | Some (ds, rest) =>
            match ds, skip_space rest with
            | _ :: _, [] =>
                if int_max_str_digits <? Z.of_nat (length ds) then None
                else Some (if negative then - digits_number ds else digits_number ds)
            | _, _ => None
            end
        | None => None
        end
  end.

Definition parse_int (s : string) : option Z := parse_literal (int_normalize s).

(** [int(v)] *)
Definition py_int (v : pyval) : result Z :=
  match v with
  | PyStr s => match parse_int s with Some z => Ok z | None => Err ValueError end
  | PyInt z => Ok z
  | PyFloat f => float_trunc f
  | PyBool b => Ok (if b then 1 else 0)
  | PyNone => Err TypeError
  end.

(** ** Records *)

(** A row of the spreadsheet: a Python dict keyed by column title. *)
Abbreviation watch := (gmap string pyval).

(** [d.get(k)] *)
Definition dict_get (d : watch) (k : string) : pyval :=
  default PyNone (d !! k).

(** [{"offer_id": ..., "stock": ...}] *)
Record stock_rec : Type := MkStock {
  s_offer_id : string;
  s_stock : Z
}.

(** The dict built by [create_prices]. *)
Record price_rec : Type := MkPrice {
  auto_action_enabled : string;
  currency_code : string;
  p_offer_id : string;
  old_price : string;
  price : string
}.

(** ** Outcomes compose like exceptions do *)

#[global] Instance result_ret : MRet result := λ A a, Ok a.

#[global] Instance result_bind : MBind result := λ A B f r,
  match r with
  | Ok a => f a
  | Err e => Err e
  | Fuel => Fuel
  end.

(** ** List and string primitives of Python used by the module *)

(** [len(l)] *)
Definition len {A} (l : list A) : Z := Z.of_nat (length l).

(** [l.remove(x)]: drops the first element equal to [x]; [ValueError]
    when there is none. *)
Fixpoint list_remove_first (x : string) (l : list string) : result (list string) :=
  match l with
  | [] => Err ValueError
  | y :: l' =>
      if decide (x = y) then Ok l'
      else l'' ← list_remove_first x l'; Ok (y :: l'')
  end.

(** [range(start, stop, step)], as the list of the values it yields. *)
Definition py_range (start stop step : Z) : result (list Z) :=
  if step =? 0 then Err ValueError
  else
    let count :=
      if 0 <? step
      then (if start <? stop then (stop - start - 1) / step + 1 else 0)
      else (if stop <? start then (start - stop - 1) / (- step) + 1 else 0) in
    Ok (map (λ k : nat, start + Z.of_nat k * step) (seq 0 (Z.to_nat count))).

(** A slice bound is taken from the end when negative, and clipped to
    the list. *)
Definition slice_bound (n k : Z) : Z :=
  if k <? 0 then Z.max 0 (k + n) else Z.min k n.

(** [l[i:j]] *)
Definition py_slice {A} (l : list A) (i j : Z) : list A :=
  let lo := slice_bound (len l) i in
  let hi := slice_bound (len l) j in
  take (Z.to_nat (hi - lo)) (drop (Z.to_nat lo) l).

(** [s.split(sep)] for a one-character separator. *)
Fixpoint str_split (sep : ascii) (s : string) : list string :=
  match s with
  | EmptyString => [EmptyString]
  | String c s' =>
      if Ascii.eqb c sep then EmptyString :: str_split sep s'
      else
        match str_split sep s' with
        | piece :: pieces => String c piece :: pieces
        | [] => [String c EmptyString]
        end
  end.

(** [re.sub("[^0-9]", "", s)].  A character outside ASCII is encoded by
    bytes above 127 only, so dropping the bytes that are not ASCII
    digits drops exactly the characters that are not ASCII digits. *)
Fixpoint re_sub_non_digits (s : string) : string :=
  match s with
  | EmptyString => EmptyString
  | String c s' =>
      if is_digit c then String c (re_sub_non_digits s') else re_sub_non_digits s'
  end.

(** ** price_conversion *)

(** [price.split(".")] needs a [str]; any other value has no [split]. *)
Definition price_conversion (price : pyval) : result string :=
  match price with
  | PyStr s =>
      match str_split "." s with
      | first :: _ => Ok (re_sub_non_digits first)
      | [] => Err IndexError
      end
  | _ => Err AttributeError
  end.

(** ** divide

    [divide] is a generator; every caller consumes it at once with
    [list(divide(...))], and that list is what is modelled.  The
    [ValueError] of [range] with a zero step is raised when the
    generator is first advanced. *)
Definition divide {A} (lst : list A) (n : Z) : result (list (list A)) :=
  idx ← py_range 0 (len lst) n;
  Ok (map (λ i, py_slice lst i (i + n)) idx).

(** ** create_stocks, on list values *)

(** Lines 193-199: the stock of a matched record. *)
Definition stock_of (w : watch) : result Z :=
  count ← py_str (dict_get w "Количество");
  if decide (count = ">10") then Ok 100
  else if decide (count = "1") then Ok 0
  else py_int (dict_get w "Количество").

(** The first loop.  [stocks] is the local list being built and
    [offer_ids] the content of the list object being consumed; the
    content reached is returned also when the loop raises. *)
Fixpoint create_stocks_loop (watch_remnants : list watch) (stocks : list stock_rec)
    (offer_ids : list string) : result (list stock_rec) * list string :=
  match watch_remnants with
  | [] => (Ok stocks, offer_ids)
  | w :: rest =>
      match py_str (dict_get w "Код") with
      | Ok code =>
          if decide (code ∈ offer_ids) then
            match stock_of w with
            | Ok stock =>
                match list_remove_first code offer_ids with
                | Ok offer_ids' =>
                    create_stocks_loop rest (stocks ++ [MkStock code stock]) offer_ids'
                | Err e => (Err e, offer_ids)
                | Fuel => (Fuel, offer_ids)
                end
            | Err e => (Err e, offer_ids)
            | Fuel => (Fuel, offer_ids)
            end
          else create_stocks_loop rest stocks offer_ids
      | Err e => (Err e, offer_ids)
      | Fuel => (Fuel, offer_ids)
      end
  end.

(** Both loops: the returned list, and the final content of
    [offer_ids]. *)
Definition create_stocks_on (watch_remnants : list watch) (offer_ids : list string)
    : result (list stock_rec) * list string :=
  let '(r, offer_ids') := create_stocks_loop watch_remnants [] offer_ids in
  (stocks ← r; Ok (stocks ++ map (λ offer_id, MkStock offer_id 0) offer_ids'),
   offer_ids').

(** ** create_prices, on list values *)

Fixpoint create_prices_loop (watch_remnants : list watch) (prices : list price_rec)
    (offer_ids : list string) : result (list price_rec) :=
  match watch_remnants with
  | [] => Ok prices
  | w :: rest =>
      code ← py_str (dict_get w "Код");
      if decide (code ∈ offer_ids) then
        p ← price_conversion (dict_get w "Цена");
        create_prices_loop rest (prices ++ [MkPrice "UNKNOWN" "RUB" code "0" p]) offer_ids
      else create_prices_loop rest prices offer_ids
  end.

Definition create_prices_on (watch_remnants : list watch) (offer_ids : list string)
    : result (list price_rec) :=
  create_prices_loop watch_remnants [] offer_ids.

(** ** The store and the outside world

    Lists that the program passes between functions are objects in a
    store, named by references, so that a mutation through one name is
    seen through every other.  The services reached over the network or
    the file system are an interface over an abstract world. *)

Abbreviation loc := nat.

Inductive obj : Type :=
  | ListStr (l : list string)
  | ListWatch (l : list watch).

(** One element of the catalog listing, and one page of it
    ([response.json().get("result")]). *)
Record product : Type := MkProduct { offer_id : string }.

Record page : Type := MkPage {
  page_items : list product;
  page_total : Z;
  page_last_id : string
}.

Inductive print_arg : Type :=
  | PText (s : string)
  | PExn (e : exn).

Record services (World : Type) : Type := MkServices {
  (** [Env().str(name)] *)
  env_str : string → World → result string * World;
  (** POST /v2/product/list with the given [last_id], then
      [raise_for_status] and the ["result"] of the JSON body *)
  post_product_list : string → string → string → World → result page * World;
  (** POST /v1/product/import/prices *)
  post_prices : list price_rec → string → string → World → result unit * World;
  (** POST /v1/product/import/stocks *)
  post_stocks : list stock_rec → string → string → World → result unit * World;
  (** download, unpack and parse the spreadsheet, then delete it *)
  read_remnants : World → result (list watch) * World
}.

Arguments env_str {World} _ _ _.
Arguments post_product_list {World} _ _ _ _ _.
Arguments post_prices {World} _ _ _ _ _.
Arguments post_stocks {World} _ _ _ _ _.
Arguments read_remnants {World} _ _.

Record state (World : Type) : Type := MkState {
  heap : list obj;
  world : World;
  stdout : list (list print_arg)
}.

Arguments MkState {World} _ _ _.
Arguments heap {World} _.
Arguments world {World} _.
Arguments stdout {World} _.

(** A computation: runs from a state to an outcome and a state. *)
Definition M (World : Type) (A : Type) : Type :=
  state World → result A * state World.

#[global] Instance M_ret {World} : MRet (M World) := λ A a st, (Ok a, st).

#[global] Instance M_bind {World} : MBind (M World) := λ A B f m st,
  match m st with
  | (Ok a, st') => f a st'
  | (Err e, st') => (Err e, st')
  | (Fuel, st') => (Fuel, st')
  end.

Section Program.
Context {World : Type} (api : services World).

Definition raise {A} (e : exn) : M World A := λ st, (Err e, st).

Definition lift {A} (r : result A) : M World A := λ st, (r, st).

(** A call to the outside: only the world component moves. *)
Definition call {A} (f : World → result A * World) : M World A := λ st,
  let '(r, w) := f (world st) in (r, MkState (heap st) w (stdout st)).

(** A new list object. *)
Definition alloc (o : obj) : M World loc := λ st,
  (Ok (length (heap st)), MkState (heap st ++ [o]) (world st) (stdout st)).

Definition load (l : loc) : M World obj := λ st,
  match heap st !! l with
  | Some o => (Ok o, st)
  | None => (Err OtherError, st)   (* no run of the program gets here *)
  end.

Definition store (l : loc) (o : obj) : M World unit := λ st,
  (Ok (), MkState (<[l := o]> (heap st)) (world st) (stdout st)).

Definition print (args : list print_arg) : M World unit := λ st,
  (Ok (), MkState (heap st) (world st) (stdout st ++ [args])).

(** [for x in l: f(x)] *)
Fixpoint for_each {A} (f : A → M World unit) (l : list A) : M World unit :=
  match l with
  | [] => mret ()
  | x :: l' => _ ← f x; for_each f l'
  end.

Definition get_product_list (last_id client_id seller_token : string) : M World page :=
  call (post_product_list api last_id client_id seller_token).

(** The [while True] loop of [get_offer_ids]; [fuel] bounds the number
    of turns the model follows. *)
Fixpoint get_offer_ids_loop (fuel : nat) (last_id : string) (product_list : list product)
    (client_id seller_token : string) : M World (list product) :=
  match fuel with
  | O => lift Fuel
  | S fuel' =>
      some_prod ← get_product_list last_id client_id seller_token;
      let product_list := product_list ++ page_items some_prod in
      let total := page_total some_prod in
      let last_id := page_last_id some_prod in
      if total =? len product_list then mret product_list
      else get_offer_ids_loop fuel' last_id product_list client_id seller_token
  end.

(** Returns the reference of the new list of identifiers. *)
Definition get_offer_ids (fuel : nat) (client_id seller_token : string) : M World loc :=
  product_list ← get_offer_ids_loop fuel "" [] client_id seller_token;
  alloc (ListStr (map offer_id product_list)).

Definition update_price (prices : list price_rec) (client_id seller_token : string)
    : M World unit :=
  call (post_prices api prices client_id seller_token).

Definition update_stocks (stocks : list stock_rec) (client_id seller_token : string)
    : M World unit :=
  call (post_stocks api stocks client_id seller_token).

Definition download_stock : M World loc :=
  watch_remnants ← call (read_remnants api);
  alloc (ListWatch watch_remnants).

(** [create_stocks] on references: the list object behind [offer_ids]
    is updated in place, whether or not the loop raises. *)
Definition create_stocks (watch_remnants offer_ids : loc) : M World (list stock_rec) :=
  ow ← load watch_remnants;
  oi ← load offer_ids;
  match ow, oi with
  | ListWatch ws, ListStr ids =>
      let '(r, ids') := create_stocks_on ws ids in
      _ ← store offer_ids (ListStr ids');
      lift r
  | _, _ => raise AttributeError
  end.

Definition create_prices (watch_remnants offer_ids : loc) : M World (list price_rec) :=
  ow ← load watch_remnants;
  oi ← load offer_ids;
  match ow, oi with
  | ListWatch ws, ListStr ids => lift (create_prices_on ws ids)
  | _, _ => raise AttributeError
  end.

Definition upload_prices (fuel : nat) (watch_remnants : loc) (client_id seller_token : string)
    : M World (list price_rec) :=
  offer_ids ← get_offer_ids fuel client_id seller_token;
  prices ← create_prices watch_remnants offer_ids;
  chunks ← lift (divide prices 1000);
  _ ← for_each (λ some_price, update_price some_price client_id seller_token) chunks;
  mret prices.

Definition upload_stocks (fuel : nat) (watch_remnants : loc) (client_id seller_token : string)
    : M World (list stock_rec * list stock_rec) :=
  offer_ids ← get_offer_ids fuel client_id seller_token;
  stocks ← create_stocks watch_remnants offer_ids;
  chunks ← lift (divide stocks 100);
  _ ← for_each (λ some_stock, update_stocks some_stock client_id seller_token) chunks;
  let not_empty := filter (λ stock, s_stock stock ≠ 0) stocks in
  mret (not_empty, stocks).

(** The body of the [try] of [main]; the locals [stocks] and [prices]
    are returned so that they can be spoken about. *)
Definition main_try (fuel : nat) (client_id seller_token : string)
    : M World (list stock_rec * list price_rec) :=
  offer_ids ← get_offer_ids fuel client_id seller_token;
  watch_remnants ← download_stock;
  stocks ← create_stocks watch_remnants offer_ids;
  chunks ← lift (divide stocks 100);
  _ ← for_each (λ some_stock, update_stocks some_stock client_id seller_token) chunks;
  prices ← create_prices watch_remnants offer_ids;
  chunks ← lift (divide prices 900);
  _ ← for_each (λ some_price, update_price some_price client_id seller_token) chunks;
  mret (stocks, prices).

(** The three [except] clauses. *)
Definition main_except (e : exn) : M World unit :=
  match e with
  | ReadTimeout => print [PText "Превышено время ожидания..."]
  | ConnectionError => print [PExn e; PText "Ошибка соединения"]
  | _ => print [PExn e; PText "ERROR_2"]
  end.

Definition main (fuel : nat) : M World unit := λ st,
  match env_str api "SELLER_TOKEN" (world st) with
  | (Ok seller_token, w1) =>
      match env_str api "CLIENT_ID" w1 with
      | (Ok client_id, w2) =>
          match main_try fuel client_id seller_token (MkState (heap st) w2 (stdout st)) with
          | (Ok _, st') => (Ok (), st')
          | (Err e, st') => main_except e st'
          | (Fuel, st') => (Fuel, st')
          end
      | (Err e, w2) => (Err e, MkState (heap st) w2 (stdout st))
      | (Fuel, w2) => (Fuel, MkState (heap st) w2 (stdout st))
      end
  | (Err e, w1) => (Err e, MkState (heap st) w1 (stdout st))
  | (Fuel, w1) => (Fuel, MkState (heap st) w1 (stdout st))
  end.

End Program.

(** ** A simulated world

    A marketplace that serves a fixed catalog page by page (keyed by the
    [last_id] cursor), a fixed spreadsheet, and that records every
    update it receives.  It is used to run the program on concrete
    scenarios. *)

Module Sim.

Record world : Type := MkWorld {
  environ : gmap string string;
  catalog : gmap string page;
  remnants : list watch;
  sent_stocks : list (list stock_rec);
  sent_prices : list (list price_rec)
}.

Definition sim_env_str (name : string) (w : world) : result string * world :=
  match environ w !! name with
  | Some v => (Ok v, w)
  | None => (Err EnvError, w)
  end.

Definition sim_post_product_list (last_id client_id seller_token : string) (w : world)
    : result page * world :=
  match catalog w !! last_id with
  | Some p => (Ok p, w)
  | None => (Err HTTPError, w)
  end.

Definition sim_post_prices (prices : list price_rec) (client_id seller_token : string)
    (w : world) : result unit * world :=
  (Ok (), MkWorld (environ w) (catalog w) (remnants w) (sent_stocks w)
            (sent_prices w ++ [prices])).

Definition sim_post_stocks (stocks : list stock_rec) (client_id seller_token : string)
    (w : world) : result unit * world :=
  (Ok (), MkWorld (environ w) (catalog w) (remnants w) (sent_stocks w ++ [stocks])
            (sent_prices w)).

Definition sim_read_remnants (w : world) : result (list watch) * world :=
  (Ok (remnants w), w).

Definition api : services world :=
  MkServices world sim_env_str sim_post_product_list sim_post_prices sim_post_stocks
    sim_read_remnants.

Definition start (w : world) : state world := MkState [] w [].

(** A spreadsheet row with the three columns the program reads. *)
Definition row (code quantity price_text : pyval) : watch :=
  <["Код" := code]> (<["Количество" := quantity]> (<["Цена" := price_text]> ∅)).

(** The end-to-end scenario: offers X1, X2, X3 served on two pages
    (2 + 1), and spreadsheet rows for X1 and X2. *)
Definition scenario : world :=
  MkWorld
    (<["SELLER_TOKEN" := "token"]> (<["CLIENT_ID" := "client"]> ∅))
    (<["" := MkPage [MkProduct "X1"; MkProduct "X2"] 3 "cursor1"]>
       (<["cursor1" := MkPage [MkProduct "X3"] 3 ""]> ∅))
    [row (PyStr "X1") (PyStr ">10") (PyStr "100.50 руб");
     row (PyStr "X2") (PyStr "1") (PyStr "200 руб")]
    [] [].

(** The scenario once the spreadsheet is loaded (reference 0), once
  the catalog is fetched (reference 1), and once [create_stocks] has
  run on the two. *)
Definition loaded : state world := snd (download_stock api (start scenario)).

Definition fetched : state world :=
  snd (get_offer_ids api 5 "client" "token" loaded).

Definition transformed : state world := snd (create_stocks 0%nat 1%nat fetched).

(** A store holding one inventory list and one list of identifiers. *)
Definition store_of (ws : list watch) (ids : list string) : state world :=
  MkState [ListWatch ws; ListStr ids] scenario [].

End Sim.

(** ** Vocabulary of the statements *)

(** The characters of [s] that are ASCII digits, in order. *)
Definition keep_digits (s : string) : string :=
  string_of_list_ascii (filter (λ c, is_digit c) (list_ascii_of_string s)).

(** [pre] is the part of [s] before its first [sep] (all of [s] when
    [sep] does not occur). *)
Definition before_first (sep : ascii) (s pre : string) : Prop :=
  (sep ∉ list_ascii_of_string pre) ∧
  (s = pre ∨ ∃ post, s = pre +:+ String sep post).

(** Value of a string of decimal digits, continuing from [acc]. *)
Fixpoint digits_value (acc : Z) (s : string) : Z :=
  match s with
  | EmptyString => acc
  | String c s' => digits_value (10 * acc + digit_val c) s'
  end.

Fixpoint all_digits (s : string) : bool :=
  match s with
  | EmptyString => true
  | String c s' => is_digit c && all_digits s'
  end.

(** An integer literal as [int] reads it, once the text is rewritten to
    ASCII: a digit, then digits each of which an underscore may
    precede.  [lit_items t ds]: [t] is such a continuation and [ds] its
    digits. *)
Inductive lit_items : list ascii → list ascii → Prop :=
  | lit_end : lit_items [] []
  | lit_digit d t ds :
      is_digit d = true → lit_items t ds → lit_items (d :: t) (d :: ds)
  | lit_underscore d t ds :
      is_digit d = true → lit_items t ds → lit_items ("_"%char :: d :: t) (d :: ds).

(** [s] is the text of the integer [z]: blanks, an optional sign, the
    literal, blanks; with no more digits than [int] accepts. *)
Definition int_literal (s : string) (z : Z) : Prop :=
  ∃ lead sign d t ds trail,
    int_normalize s = lead ++ sign ++ (d :: t) ++ trail ∧
    Forall (λ c, is_c_space c = true) lead ∧
    Forall (λ c, is_c_space c = true) trail ∧
    (sign = [] ∨ sign = ["+"%char] ∨ sign = ["-"%char]) ∧
    is_digit d = true ∧ lit_items t ds ∧
    Z.of_nat (length (d :: ds)) ≤ int_max_str_digits ∧
    z = (if decide (sign = ["-"%char]) then - digits_number (d :: ds)
         else digits_number (d :: ds)).

(** What may follow the digits of a literal where the scan of [int]
    stops: nothing, or a character that is neither a digit nor an
    underscore. *)
Definition scan_stops (rest : list ascii) : Prop :=
  match rest with
  | [] => True
  | c :: _ => is_digit c = false ∧ Ascii.eqb c "_" = false
  end.

(** [a] is the float [m * 2 ^ e] cut to an integer. *)
Definition float_truncates (m : positive) (e a : Z) : Prop :=
  if 0 <=? e then a = Z.pos m * 2 ^ e
  else a * 2 ^ (- e) ≤ Z.pos m < (a + 1) * 2 ^ (- e).

(** The stock that the quantity cell of a matched row gives: the
    bucketing rule of lines 193-199, cell kind by cell kind. *)
Inductive quantity_rule : pyval → result Z → Prop :=
  | rule_many : quantity_rule (PyStr ">10") (Ok 100)
  | rule_one_text : quantity_rule (PyStr "1") (Ok 0)
  | rule_one_int : quantity_rule (PyInt 1) (Ok 0)
  | rule_text s z :
      s ≠ ">10" → s ≠ "1" → int_literal s z → quantity_rule (PyStr s) (Ok z)
  | rule_text_error s :
      s ≠ ">10" → s ≠ "1" → (∀ z, ¬ int_literal s z) →
      quantity_rule (PyStr s) (Err ValueError)
  | rule_int z :
      z ≠ 1 → Z.abs z < 10 ^ int_max_str_digits → quantity_rule (PyInt z) (Ok z)
  | rule_int_long z :
      10 ^ int_max_str_digits ≤ Z.abs z → quantity_rule (PyInt z) (Err ValueError)
  | rule_float_zero s : quantity_rule (PyFloat (S754_zero s)) (Ok 0)
  | rule_float s m e a :
      float_truncates m e a →
      quantity_rule (PyFloat (S754_finite s m e)) (Ok (if s then - a else a))
  | rule_float_infinity s :
      quantity_rule (PyFloat (S754_infinity s)) (Err OverflowError)
  | rule_float_nan : quantity_rule (PyFloat S754_nan) (Err ValueError)
  | rule_bool b : quantity_rule (PyBool b) (Ok (if b then 1 else 0))
  | rule_none : quantity_rule PyNone (Err TypeError).

(** The code column of a record, as text. *)
Definition code_of (w : watch) : string := str_text (dict_get w "Код").

(** [str] prints the code of the record. *)
Definition code_prints (w : watch) : Prop :=
  py_str (dict_get w "Код") = Ok (code_of w).

(** The reconciliation invariant on a list of stock records: at most
    one record per identifier, a zero record for every offer that no
    row of the spreadsheet carries, and no record outside the offers. *)
Definition stocks_cover (ws : list watch) (ids : list string) (stocks : list stock_rec)
    : Prop :=
  NoDup (map s_offer_id stocks) ∧
  (∀ id, id ∈ ids → id ∉ map code_of ws → MkStock id 0 ∈ stocks) ∧
  (∀ s, s ∈ stocks → s_offer_id s ∈ ids).

Definition stocks_nonneg (stocks : list stock_rec) : Prop :=
  Forall (λ s, 0 ≤ s_stock s) stocks.

(** [ids'] holds exactly the offers that no row of [ws] carries. *)
Definition unmatched_only (ws : list watch) (ids ids' : list string) : Prop :=
  ∀ id, id ∈ ids' ↔ id ∈ ids ∧ id ∉ map code_of ws.

Section Observations.
Context {World : Type} (api : services World).

(** The first [n] pages that the catalog serves when the cursor of
    each page is sent back to fetch the next one, and the world after
    these [n] requests. *)
Fixpoint fetch_pages (n : nat) (last_id client_id seller_token : string) (w : World)
    : result (list page) * World :=
  match n with
  | O => (Ok [], w)
  | S n' =>
      match post_product_list api last_id client_id seller_token w with
      | (Ok p, w1) =>
          let '(r, w2) := fetch_pages n' (page_last_id p) client_id seller_token w1 in
          (ps ← r; Ok (p :: ps), w2)
      | (Err e, w1) => (Err e, w1)
      | (Fuel, w1) => (Fuel, w1)
      end
  end.

(** Number of items accumulated once the first [j + 1] pages of [ps]
    have been added to [product_list]. *)
Definition running_count (product_list : list product) (ps : list page) (j : nat) : Z :=
  len (product_list ++ concat (map page_items (take (S j) ps))).

End Observations.

(** ** Vocabulary of the further properties *)

(** The record that [create_prices] builds for a row. *)
Definition price_of_row (w : watch) (p : price_rec) : Prop :=
  auto_action_enabled p = "UNKNOWN" ∧ currency_code p = "RUB" ∧
  p_offer_id p = code_of w ∧ old_price p = "0" ∧
  price_conversion (dict_get w "Цена") = Ok (price p).

(** The stock record appended for an offer left in the candidate list. *)
Definition zero_stock (offer_id : string) : stock_rec := MkStock offer_id 0.

(** The cursor to send after the pages [ps], having started from
    [start]. *)
Definition cursor_after (start : string) (ps : list page) : string :=
  match last ps with
  | Some p => page_last_id p
  | None => start
  end.

(** No page of [ps] brings the accumulated count to the total it
    reports. *)
Definition total_never_met (product_list : list product) (ps : list page) : Prop :=
  ∀ j p, ps !! j = Some p → page_total p ≠ running_count product_list ps j.

(** A marketplace whose listing answers every request with the same
    one-item page and a total of 0. *)
Definition stuck_world : Sim.world :=
  Sim.MkWorld ∅ (<["" := MkPage [MkProduct "X1"] 0 ""]> ∅) [] [] [].

(** A marketplace whose second listing request is refused. *)
Definition broken_world : Sim.world :=
  Sim.MkWorld (<["SELLER_TOKEN" := "token"]> (<["CLIENT_ID" := "client"]> ∅))
    (<["" := MkPage [MkProduct "X1"] 2 "gone"]> ∅) [] [] [].

(** The simulated services, except that the stock endpoint refuses every
    request once it has accepted one. *)
Definition refusing_api : services Sim.world :=
  MkServices Sim.world Sim.sim_env_str Sim.sim_post_product_list Sim.sim_post_prices
    (λ stocks client_id seller_token w,
       if decide (Sim.sent_stocks w = []) then
         Sim.sim_post_stocks stocks client_id seller_token w
       else (Err HTTPError, w))
    Sim.sim_read_remnants.

(** * Properties *)

(** Runs the outermost bind of a computation of [M]. *)
Ltac run_bind := unfold mbind at 1, M_bind at 1.

Tactic Notation "run_bind" "in" hyp(H) := unfold mbind at 1, M_bind at 1 in H.

Example str_of_Z_ex : str_of_Z 69791 = "69791" /\ str_of_Z (-5) = "-5" /\ str_of_Z 0 = "0".
Proof. repeat split; reflexivity. Qed.

Example py_int_ex :
  py_int (PyStr " 1_000 ") = Ok 1000 /\ py_int (PyStr "-5") = Ok (-5)
  /\ py_int (PyStr "abc") = Err ValueError /\ py_int (PyStr "") = Err ValueError
  /\ py_int (PyStr "1__0") = Err ValueError /\ py_int (PyStr "- 5") = Err ValueError
  /\ py_int (PyStr "007") = Ok 7 /\ py_int (PyStr "7 x") = Err ValueError.
Proof. repeat split; reflexivity. Qed.

(** [int] strips C whitespace only, reads Unicode decimal digits and
    turns Unicode spaces into blanks. *)
Example py_int_unicode_ex :
  py_int (PyStr (String "028" "7")) = Err ValueError /\
  py_int (PyStr (String "009" "7")) = Ok 7 /\
  py_int (PyStr "٣") = Ok 3 /\
  py_int (PyStr (String "7" (String "194" (String "160" "")))) = Ok 7 /\
  py_int (PyStr "+٤2") = Ok 42 /\
  py_int (PyStr "2.5") = Err ValueError /\
  py_int (PyStr "½") = Err ValueError.
Proof. repeat split; vm_compute; reflexivity. Qed.

(** 2.5, 0.1, 7.0, 1e16, 1e22, 5e-324 and -1234.5 as floats. *)
Example float_ex :
  py_str (PyFloat (S754_finite false 5629499534213120 (-51))) = Ok "2.5" /\
  py_int (PyFloat (S754_finite false 5629499534213120 (-51))) = Ok 2 /\
  py_str (PyFloat (S754_finite false 7205759403792794 (-56))) = Ok "0.1" /\
  py_int (PyFloat (S754_finite false 7205759403792794 (-56))) = Ok 0 /\
  py_str (PyFloat (S754_finite false 7881299347898368 (-50))) = Ok "7.0" /\
  py_int (PyFloat (S754_finite false 7881299347898368 (-50))) = Ok 7 /\
  py_str (PyFloat (S754_finite false 5000000000000000 1)) = Ok "1e+16" /\
  py_str (PyFloat (S754_finite false 4768371582031250 21)) = Ok "1e+22" /\
  py_int (PyFloat (S754_finite false 4768371582031250 21)) = Ok (10 ^ 22) /\
  py_str (PyFloat (S754_finite false 1 (-1074))) = Ok "5e-324" /\
  py_str (PyFloat (S754_finite true 5429388417957888 (-42))) = Ok "-1234.5" /\
  py_int (PyFloat (S754_finite true 5429388417957888 (-42))) = Ok (-1234) /\
  py_str (PyFloat (S754_zero true)) = Ok "-0.0" /\
  py_int (PyFloat (S754_infinity false)) = Err OverflowError /\
  py_int (PyFloat S754_nan) = Err ValueError.
Proof. repeat split; vm_compute; reflexivity. Qed.

(** Other cells: [str] and [int] of a boolean and of an absent cell. *)
Example py_bool_none_ex :
  py_str (PyBool true) = Ok "True" /\ py_int (PyBool true) = Ok 1 /\
  py_str PyNone = Ok "None" /\ py_int PyNone = Err TypeError.
Proof. repeat split; reflexivity. Qed.

Example dict_ex :
  dict_get (<["Код" := PyInt 5]> (∅ : watch)) "Код" = PyInt 5 /\
  dict_get (<["Код" := PyInt 5]> (∅ : watch)) "Цена" = PyNone.
Proof. split; vm_compute; reflexivity. Qed.

Example price_ex :
  price_conversion (PyStr "5990.00 руб") = Ok "5990" /\
  price_conversion (PyStr "5'990.00 руб.") = Ok "5990".
Proof. split; reflexivity. Qed.

Example divide_ex :
  divide [1;2;3;4;5] 2 = Ok [[1;2];[3;4];[5]] /\ divide [1;2;3] (-1) = Ok [] /\
  divide [1;2;3] 0 = Err ValueError.
Proof. repeat split; reflexivity. Qed.

(** ** [str] and [int] on integers *)

Lemma digit_char_ok (d : Z) :
  0 ≤ d < 10 → is_digit (digit_char d) = true ∧ digit_val (digit_char d) = d.
Proof.
  intros Hd.
  assert (d = 0 ∨ d = 1 ∨ d = 2 ∨ d = 3 ∨ d = 4 ∨ d = 5 ∨ d = 6 ∨ d = 7 ∨ d = 8 ∨ d = 9)
    as Hcases by lia.
  destruct_or!; subst d; split; reflexivity.
Qed.

Lemma app_String (c : ascii) (s1 s2 : string) :
  String c s1 +:+ s2 = String c (s1 +:+ s2).
Proof. reflexivity. Qed.

Lemma app_empty_l (s : string) : "" +:+ s = s.
Proof. reflexivity. Qed.

Lemma string_app_assoc (s1 s2 s3 : string) :
  (s1 +:+ s2) +:+ s3 = s1 +:+ (s2 +:+ s3).
Proof.
  induction s1 as [|c s1 IH]; [done|]. rewrite !app_String. by rewrite IH.
Qed.

Lemma all_digits_app (s1 s2 : string) :
  all_digits (s1 +:+ s2) = all_digits s1 && all_digits s2.
Proof.
  induction s1 as [|c s1 IH]; [done|]. rewrite app_String. simpl.
  rewrite IH. by rewrite andb_assoc.
Qed.

Lemma digits_value_app (a : Z) (s1 s2 : string) :
  digits_value a (s1 +:+ s2) = digits_value (digits_value a s1) s2.
Proof.
  revert a. induction s1 as [|c s1 IH]; intros a; [done|].
  rewrite app_String. simpl. apply IH.
Qed.

Lemma str_digits_acc (fuel : nat) (n : Z) (acc : string) :
  str_digits fuel n acc = str_digits fuel n "" +:+ acc.
Proof.
  revert n acc. induction fuel as [|fuel IH]; intros n acc; simpl; [done|].
  destruct (n <? 10); [done|].
  rewrite (IH _ (String _ acc)), (IH _ (String _ "")).
  by rewrite string_app_assoc.
Qed.

Lemma str_digits_value (fuel : nat) (n : Z) :
  0 ≤ n < 10 ^ Z.of_nat fuel →
  all_digits (str_digits fuel n "") = true ∧ digits_value 0 (str_digits fuel n "") = n.
Proof.
  revert n. induction fuel as [|fuel IH]; intros n Hn.
  { simpl in *. split; [done|lia]. }
  simpl str_digits.
  assert (0 ≤ n `mod` 10 < 10) as Hm by (apply Z.mod_pos_bound; lia).
  destruct (digit_char_ok _ Hm) as [Hd Hv].
  destruct (Z.ltb_spec n 10) as [Hlt|Hge].
  - cbn [all_digits digits_value]. rewrite Hd, Hv. split; [done|].
    rewrite Z.mod_small; lia.
  - rewrite str_digits_acc, all_digits_app, digits_value_app.
    destruct (IH (n `div` 10)) as [Ha Hval].
    { split; [apply Z.div_pos; lia|].
      apply Z.div_lt_upper_bound; [lia|].
      rewrite Nat2Z.inj_succ, Z.pow_succ_r in Hn; lia. }
    rewrite Ha, Hval. cbn [all_digits digits_value]. rewrite Hd, Hv.
    split; [done|]. pose proof (Z.div_mod n 10). lia.
Qed.

Lemma str_digits_nonempty (fuel : nat) (n : Z) :
  str_digits (S fuel) n "" ≠ "".
Proof.
  simpl. destruct (n <? 10); [done|].
  rewrite str_digits_acc. destruct (str_digits fuel (n / 10) ""); [done|].
  by rewrite app_String.
Qed.

Lemma chars_app (s1 s2 : string) :
  list_ascii_of_string (s1 +:+ s2) = list_ascii_of_string s1 ++ list_ascii_of_string s2.
Proof.
  induction s1 as [|c s1 IH]; [done|]. rewrite app_String. cbn. by rewrite IH.
Qed.

Lemma chars_length (s : string) : length (list_ascii_of_string s) = String.length s.
Proof. induction s as [|c s IH]; [done|]. cbn. by rewrite IH. Qed.

Lemma fold_digits_value (s : string) (a : Z) :
  fold_left (λ acc c, 10 * acc + digit_val c) (list_ascii_of_string s) a = digits_value a s.
Proof. revert a. induction s as [|c s IH]; intros a; [done|]. cbn. apply IH. Qed.

Lemma all_digits_Forall (s : string) :
  all_digits s = true ↔ Forall (λ c, is_digit c = true) (list_ascii_of_string s).
Proof.
  induction s as [|c s IH]; cbn [all_digits list_ascii_of_string].
  - split; [constructor|done].
  - rewrite andb_true_iff, Forall_cons, IH. done.
Qed.

(** The text of a non-negative integer: its digits, no more, no less. *)
Lemma str_nonneg_chars (n : Z) :
  0 ≤ n →
  ∃ d ds, list_ascii_of_string (str_nonneg n) = d :: ds ∧
          Forall (λ c, is_digit c = true) (d :: ds) ∧ digits_number (d :: ds) = n.
Proof.
  intros Hn. unfold str_nonneg.
  destruct (str_digits_value (S (Z.to_nat (Z.log2 n))) n) as [Ha Hv].
  { split; [done|].
    destruct (decide (n = 0)) as [->|Hne]; [done|].
    rewrite Nat2Z.inj_succ, Z2Nat.id by apply Z.log2_nonneg.
    pose proof (Z.log2_spec n ltac:(lia)) as [_ Hlt].
    eapply Z.lt_le_trans; [exact Hlt|].
    apply Z.pow_le_mono_l. pose proof (Z.log2_nonneg n). lia. }
  pose proof (str_digits_nonempty (Z.to_nat (Z.log2 n)) n) as Hne.
  apply all_digits_Forall in Ha. unfold digits_number.
  destruct (str_digits _ n "") as [|c s] eqn:Hs; [done|].
  exists c, (list_ascii_of_string s). split; [done|]. split; [exact Ha|].
  rewrite <- Hv. apply (fold_digits_value (String c s) 0).
Qed.

Lemma length_app_String (s : string) (c : ascii) :
  String.length (s +:+ String c "") = S (String.length s).
Proof. induction s as [|c' s IH]; [done|]. rewrite app_String. cbn. by rewrite IH. Qed.

(** The length of the text of [n] against the powers of ten. *)
Lemma str_digits_length (fuel : nat) (n : Z) (k : nat) :
  0 ≤ n < 10 ^ Z.of_nat fuel → (1 ≤ k)%nat →
  (String.length (str_digits fuel n "") ≤ k)%nat ↔ n < 10 ^ Z.of_nat k.
Proof.
  revert n k. induction fuel as [|fuel IH]; intros n k Hn Hk.
  { assert (n = 0) as -> by (cbn in Hn; lia). cbn [str_digits String.length].
    split; [|lia]. intros _. apply Z.pow_pos_nonneg; lia. }
  cbn [str_digits]. destruct (Z.ltb_spec n 10) as [Hlt|Hge].
  - cbn [String.length]. split; [|lia]. intros _. eapply Z.lt_le_trans; [exact Hlt|].
    destruct k as [|k]; [lia|]. rewrite Nat2Z.inj_succ, Z.pow_succ_r by lia.
    pose proof (Z.pow_pos_nonneg 10 (Z.of_nat k)). lia.
  - rewrite str_digits_acc, length_app_String.
    assert (0 ≤ n `div` 10 < 10 ^ Z.of_nat fuel) as Hdiv.
    { split; [apply Z.div_pos; lia|]. apply Z.div_lt_upper_bound; [lia|].
      rewrite Nat2Z.inj_succ, Z.pow_succ_r in Hn; lia. }
    destruct k as [|[|k]]; [lia| |].
    + split; [|change (10 ^ Z.of_nat 1) with 10; lia]. intros Hl. exfalso.
      destruct fuel as [|fuel]; [cbn in Hn; lia|].
      pose proof (str_digits_nonempty fuel (n `div` 10)) as Hne.
      destruct (str_digits (S fuel) (n `div` 10) ""); [done|]. cbn in Hl. lia.
    + rewrite <- Nat.succ_le_mono, (IH (n `div` 10) (S k) Hdiv) by lia.
      rewrite (Nat2Z.inj_succ (S k)), (Z.pow_succ_r 10 (Z.of_nat (S k))) by lia.
      pose proof (Z.div_mod n 10). pose proof (Z.mod_pos_bound n 10). lia.
Qed.

Lemma str_nonneg_length (n : Z) (k : nat) :
  0 ≤ n → (1 ≤ k)%nat →
  (String.length (str_nonneg n) ≤ k)%nat ↔ n < 10 ^ Z.of_nat k.
Proof.
  intros Hn Hk. apply str_digits_length; [|done]. split; [done|].
  destruct (decide (n = 0)) as [->|Hne]; [done|].
  rewrite Nat2Z.inj_succ, Z2Nat.id by apply Z.log2_nonneg.
  pose proof (Z.log2_spec n ltac:(lia)) as [_ Hlt].
  eapply Z.lt_le_trans; [exact Hlt|].
  apply Z.pow_le_mono_l. pose proof (Z.log2_nonneg n). lia.
Qed.

Lemma str_longer_than (n : Z) (k : nat) :
  0 ≤ n → (1 ≤ k)%nat →
  (Z.of_nat k <? Z.of_nat (String.length (str_nonneg n))) = true ↔ 10 ^ Z.of_nat k ≤ n.
Proof.
  intros Hn Hk. rewrite Z.ltb_lt.
  pose proof (str_nonneg_length n k Hn Hk) as Hlen. split.
  - intros Hlong. apply Z.nlt_ge. intros Hlt. apply Hlen in Hlt. lia.
  - intros Hbig. apply Z.nle_gt. intros Hshort.
    assert (String.length (str_nonneg n) ≤ k)%nat as Hl by lia.
    apply Hlen in Hl. lia.
Qed.

(** [str] refuses exactly the integers of more than
    [int_max_str_digits] digits. *)
Lemma str_too_long (n : Z) :
  0 ≤ n →
  (int_max_str_digits <? Z.of_nat (String.length (str_nonneg n))) = true
    ↔ 10 ^ int_max_str_digits ≤ n.
Proof.
  intros Hn. rewrite <- (Z2Nat.id int_max_str_digits) by done.
  apply str_longer_than; [done|]. apply Nat.leb_le. vm_compute. reflexivity.
Qed.

(** ** [int] on text *)

Lemma is_digit_code (c : ascii) :
  is_digit c = true → (48 ≤ nat_of_ascii c ≤ 57)%nat.
Proof.
  unfold is_digit. intros H. apply andb_true_iff in H as [H1 H2].
  apply Nat.leb_le in H1, H2. lia.
Qed.

Lemma digit_not_space_or_sign (c : ascii) :
  is_digit c = true →
  is_c_space c = false ∧ Ascii.eqb c "-" = false ∧ Ascii.eqb c "+" = false ∧
  Ascii.eqb c "_" = false.
Proof.
  intros H. apply is_digit_code in H. repeat split.
  - unfold is_c_space. apply orb_false_iff. split.
    + apply andb_false_iff. right. apply Nat.leb_gt. lia.
    + apply Nat.eqb_neq. lia.
  - apply Ascii.eqb_neq. intros ->. vm_compute in H. lia.
  - apply Ascii.eqb_neq. intros ->. vm_compute in H. lia.
  - apply Ascii.eqb_neq. intros ->. vm_compute in H. lia.
Qed.

Lemma space_not_digit_or_underscore (c : ascii) :
  is_c_space c = true → is_digit c = false ∧ Ascii.eqb c "_" = false.
Proof.
  intros Hc. split.
  - destruct (is_digit c) eqn:Hd; [|done].
    apply digit_not_space_or_sign in Hd as [Hs _]. congruence.
  - apply Ascii.eqb_neq. intros ->. by vm_compute in Hc.
Qed.

Lemma skip_space_lead (lead l : list ascii) :
  Forall (λ c, is_c_space c = true) lead →
  match l with c :: _ => is_c_space c = false | [] => True end →
  skip_space (lead ++ l) = l.
Proof.
  intros Hlead Hl. induction Hlead as [|c lead Hc _ IH]; cbn.
  - destruct l as [|c l]; [done|]. cbn. by rewrite Hl.
  - by rewrite Hc.
Qed.

Lemma skip_space_split (l : list ascii) :
  ∃ lead, l = lead ++ skip_space l ∧ Forall (λ c, is_c_space c = true) lead ∧
          match skip_space l with c :: _ => is_c_space c = false | [] => True end.
Proof.
  induction l as [|c l (lead & Hl & Hlead & Hfirst)].
  { exists []. by repeat split. }
  cbn. destruct (is_c_space c) eqn:Hc.
  - exists (c :: lead). split; [by rewrite Hl at 1|]. split; [by constructor|done].
  - exists []. by repeat split.
Qed.

Lemma scan_digits_complete (t ds rest : list ascii) :
  lit_items t ds → scan_stops rest →
  ∀ acc, scan_digits false acc (t ++ rest) = Some (acc ++ ds, rest).
Proof.
  intros Hitems Hrest. induction Hitems as [|d t ds Hd _ IH|d t ds Hd _ IH]; intros acc.
  - rewrite app_nil_r. destruct rest as [|c rest]; [done|].
    destruct Hrest as [Hc1 Hc2]. cbn. by rewrite Hc1, Hc2.
  - cbn. rewrite Hd, IH. by rewrite <- app_assoc.
  - cbn [app scan_digits]. change (is_digit "_") with false.
    change (Ascii.eqb "_" "_") with true. cbn iota.
    rewrite Hd, IH. by rewrite <- app_assoc.
Qed.

Lemma scan_digits_sound (l : list ascii) :
  ∀ prev_us acc ds' rest,
    scan_digits prev_us acc l = Some (ds', rest) →
    ∃ t ds, l = t ++ rest ∧ ds' = acc ++ ds ∧ scan_stops rest ∧
            if prev_us
            then ∃ d t0 ds0, t = d :: t0 ∧ ds = d :: ds0 ∧ is_digit d = true ∧
                             lit_items t0 ds0
            else lit_items t ds.
Proof.
  induction l as [|c l IH]; intros prev_us acc ds' rest Hscan.
  { cbn in Hscan. destruct prev_us; [done|]. injection Hscan as <- <-.
    exists [], []. rewrite !app_nil_r. repeat split; constructor. }
  cbn in Hscan. destruct (is_digit c) eqn:Hd.
  - destruct (IH _ _ _ _ Hscan) as (t & ds & -> & -> & Hstop & Hitems).
    exists (c :: t), (c :: ds). split; [done|]. split; [by rewrite <- app_assoc|].
    split; [done|]. destruct prev_us; [by exists c, t, ds|by constructor].
  - destruct (Ascii.eqb_spec c "_") as [->|Hne].
    + destruct prev_us; [done|].
      destruct (IH _ _ _ _ Hscan) as (t & ds & -> & -> & Hstop & d & t0 & ds0 & -> & -> & Hd0 & Hitems).
      exists ("_"%char :: d :: t0), (d :: ds0). repeat split; [done|]. by constructor.
    + destruct prev_us; [done|]. injection Hscan as <- <-.
      exists [], []. rewrite !app_nil_r. repeat split; [done| |constructor].
      by apply Ascii.eqb_neq.
Qed.

Lemma lit_items_digits (t ds : list ascii) :
  lit_items t ds → Forall (λ c, is_digit c = true) ds.
Proof. induction 1; by constructor. Qed.

Lemma lit_items_cons_inv (t ds : list ascii) (d : ascii) :
  lit_items t (d :: ds) →
  is_digit d = true ∧
  ((∃ t0, t = d :: t0 ∧ lit_items t0 ds) ∨
   (∃ t0, t = "_"%char :: d :: t0 ∧ lit_items t0 ds)).
Proof. inversion 1; subst; eauto. Qed.

Lemma parse_literal_complete (lead sign t ds trail : list ascii) (d : ascii) :
  Forall (λ c, is_c_space c = true) lead →
  Forall (λ c, is_c_space c = true) trail →
  sign = [] ∨ sign = ["+"%char] ∨ sign = ["-"%char] →
  is_digit d = true → lit_items t ds →
  Z.of_nat (length (d :: ds)) ≤ int_max_str_digits →
  parse_literal (lead ++ sign ++ (d :: t) ++ trail) =
    Some (if decide (sign = ["-"%char]) then - digits_number (d :: ds)
          else digits_number (d :: ds)).
Proof.
  intros Hlead Htrail Hsign Hd Hitems Hlen.
  destruct (digit_not_space_or_sign d Hd) as (Hsp & Hminus & Hplus & Hus).
  assert (scan_stops trail) as Hstop.
  { destruct Htrail as [|c trail Hc _]; [done|]. by apply space_not_digit_or_underscore. }
  assert (skip_space trail = []) as Htr.
  { rewrite <- (app_nil_r trail). by apply skip_space_lead. }
  assert (scan_digits false [] ((d :: t) ++ trail) = Some (d :: ds, trail)) as Hscan.
  { apply (scan_digits_complete (d :: t) (d :: ds) trail); [by constructor|done]. }
  cbn [app] in Hscan. unfold parse_literal. rewrite skip_space_lead; [|done|].
  2:{ destruct Hsign as [->|[->| ->]]; [done|done|done]. }
  destruct Hsign as [->|[->| ->]].
  - cbn [app]. rewrite Hplus, Hminus, Hus, Hscan, Htr.
    rewrite (proj2 (Z.ltb_ge _ _) Hlen). by rewrite decide_False.
  - cbn [app]. change (Ascii.eqb "+" "+") with true. cbn iota.
    rewrite Hus, Hscan, Htr, (proj2 (Z.ltb_ge _ _) Hlen). by rewrite decide_False.
  - cbn [app]. change (Ascii.eqb "-" "+") with false. change (Ascii.eqb "-" "-") with true.
    cbn iota. rewrite Hus, Hscan, Htr, (proj2 (Z.ltb_ge _ _) Hlen).
    by rewrite decide_True.
Qed.

Lemma parse_literal_sound (l : list ascii) (z : Z) :
  parse_literal l = Some z →
  ∃ lead sign d t ds trail,
    l = lead ++ sign ++ (d :: t) ++ trail ∧
    Forall (λ c, is_c_space c = true) lead ∧
    Forall (λ c, is_c_space c = true) trail ∧
    (sign = [] ∨ sign = ["+"%char] ∨ sign = ["-"%char]) ∧
    is_digit d = true ∧ lit_items t ds ∧
    Z.of_nat (length (d :: ds)) ≤ int_max_str_digits ∧
    z = (if decide (sign = ["-"%char]) then - digits_number (d :: ds)
         else digits_number (d :: ds)).
Proof.
  unfold parse_literal. intros Hparse.
  destruct (skip_space_split l) as (lead & Hl & Hlead & _).
  remember (skip_space l) as l1 eqn:El1.
  assert (∃ sign negative l2,
            l1 = sign ++ l2 ∧ (sign = [] ∨ sign = ["+"%char] ∨ sign = ["-"%char]) ∧
            negative = (if decide (sign = ["-"%char]) then true else false) ∧
            match l1 with
            | c :: l' =>
                if Ascii.eqb c "+" then (false, l')
                else if Ascii.eqb c "-" then (true, l')
                else (false, l1)
            | [] => (false, [])
            end = (negative, l2)) as (sign & negative & l2 & Hl1 & Hsign & Hneg & Hmatch).
  { destruct l1 as [|c l'].
    - exists [], false, []. repeat split; auto.
    - destruct (Ascii.eqb_spec c "+") as [->|Hp].
      + exists ["+"%char], false, l'. repeat split; auto.
      + destruct (Ascii.eqb_spec c "-") as [->|Hm].
        * exists ["-"%char], true, l'. repeat split; auto.
        * exists [], false, (c :: l'). repeat split; auto. }
  rewrite Hmatch in Hparse. destruct l2 as [|c l2]; [done|].
  destruct (Ascii.eqb_spec c "_") as [->|Hus]; [done|].
  destruct (scan_digits false [] (c :: l2)) as [[ds' rest]|] eqn:Hscan; [|done].
  destruct ds' as [|d0 ds0]; [done|].
  destruct (skip_space rest) eqn:Hrest; [|done].
  destruct (Z.ltb_spec int_max_str_digits (Z.of_nat (length (d0 :: ds0)))) as [|Hlen];
    [done|].
  injection Hparse as <-.
  apply scan_digits_sound in Hscan as (t & ds & Ht & Hds & Hstop & Hitems).
  cbn [app] in Hds. subst ds.
  apply lit_items_cons_inv in Hitems as [Hd [(t0 & -> & Hit0)|(t0 & -> & Hit0)]].
  2:{ cbn in Ht. by injection Ht as Hc _. }
  cbn in Ht. injection Ht as Hc Hl2.
  exists lead, sign, d0, t0, ds0, rest.
  split; [rewrite Hl, Hl1, Hc, Hl2; done|]. split; [done|]. split.
  { destruct (skip_space_split rest) as (tr & Hr & Htr & _).
    rewrite Hrest, app_nil_r in Hr. by subst. }
  split; [done|]. split; [done|]. split; [done|]. split; [done|].
  rewrite Hneg. by destruct (decide (sign = ["-"%char])).
Qed.

(** [int] reads a text as [z] exactly when the text is a literal of
    [z]. *)
Lemma parse_int_spec (s : string) (z : Z) : parse_int s = Some z ↔ int_literal s z.
Proof.
  unfold parse_int, int_literal. split.
  - apply parse_literal_sound.
  - intros (lead & sign & d & t & ds & trail & -> & Hlead & Htrail & Hsign & Hd & Hit & Hlen & ->).
    by apply parse_literal_complete.
Qed.

Lemma int_literal_functional (s : string) (z1 z2 : Z) :
  int_literal s z1 → int_literal s z2 → z1 = z2.
Proof. rewrite <- !parse_int_spec. congruence. Qed.

(** ** [int(str(z))] and the texts [">10"] and ["1"] *)

Lemma int_normalize_ascii (s : string) :
  Forall (λ c, (nat_of_ascii c < 127)%nat) (list_ascii_of_string s) →
  int_normalize s = list_ascii_of_string s.
Proof.
  unfold int_normalize, code_points. generalize (list_ascii_of_string s).
  intros l Hl. induction Hl as [|c l Hc _ IH]; [done|].
  cbn [map utf8_decode]. rewrite (proj2 (Z.ltb_lt _ 128)) by lia.
  cbn [to_ascii_literal]. rewrite (proj2 (Z.ltb_lt _ 127)) by lia.
  by rewrite IH, Nat2Z.id, ascii_nat_embedding.
Qed.

Lemma lit_items_plain (ds : list ascii) :
  Forall (λ c, is_digit c = true) ds → lit_items ds ds.
Proof. induction 1; by constructor. Qed.

(** The text of an integer: a minus sign if it is negative, then the
    digits of its absolute value. *)
Lemma str_of_Z_chars (z : Z) :
  ∃ d ds,
    list_ascii_of_string (str_of_Z z) = (if z <? 0 then ["-"%char] else []) ++ d :: ds ∧
    Forall (λ c, is_digit c = true) (d :: ds) ∧
    digits_number (d :: ds) = Z.abs z ∧
    length (d :: ds) = String.length (str_nonneg (Z.abs z)).
Proof.
  destruct (str_nonneg_chars (Z.abs z) ltac:(lia)) as (d & ds & Hchars & Hdig & Hval).
  exists d, ds. split; [|split; [done|split; [done|]]].
  - unfold str_of_Z. destruct (Z.ltb_spec z 0).
    + cbn [list_ascii_of_string app]. rewrite <- Hchars. by rewrite Z.abs_neq by lia.
    + rewrite <- Hchars. by rewrite Z.abs_eq by lia.
  - by rewrite <- Hchars, chars_length.
Qed.

(** [int] reads the text of [z] back as [z], unless the text has more
    digits than it accepts. *)
Lemma parse_int_str_of_Z (z : Z) :
  parse_int (str_of_Z z) =
    if int_max_str_digits <? Z.of_nat (String.length (str_nonneg (Z.abs z)))
    then None else Some z.
Proof.
  destruct (str_of_Z_chars z) as (d & ds & Hchars & Hdig & Hval & Hlen).
  assert (is_digit d = true) as Hd by (by apply Forall_cons in Hdig as [? _]).
  destruct (digit_not_space_or_sign d Hd) as (Hsp & Hminus & Hplus & Hus).
  assert (scan_digits false [] (d :: ds) = Some (d :: ds, [])) as Hscan.
  { rewrite <- (app_nil_r (d :: ds)) at 1.
    apply (scan_digits_complete (d :: ds) (d :: ds) []); [|done].
    by apply lit_items_plain. }
  unfold parse_int. rewrite int_normalize_ascii.
  2:{ rewrite Hchars. apply Forall_app. split.
      - destruct (z <? 0); repeat constructor.
      - eapply Forall_impl; [exact Hdig|]. cbv beta. intros c Hc.
        apply is_digit_code in Hc. lia. }
  rewrite Hchars, <- Hlen. unfold parse_literal.
  destruct (Z.ltb_spec z 0) as [Hneg|Hpos]; cbn [app skip_space].
  - change (is_c_space "-") with false. cbn iota.
    change (Ascii.eqb "-" "+") with false. change (Ascii.eqb "-" "-") with true.
    cbn iota. rewrite Hus, Hscan. cbn [skip_space].
    destruct (_ <? _); [done|]. f_equal. lia.
  - rewrite Hsp, Hplus, Hminus, Hus, Hscan. cbn [skip_space].
    destruct (_ <? _); [done|]. f_equal. lia.
Qed.

Lemma str_of_Z_not_many (z : Z) : str_of_Z z ≠ ">10".
Proof.
  intros H. destruct (str_of_Z_chars z) as (d & ds & Hchars & Hdig & _).
  rewrite H in Hchars. apply Forall_cons in Hdig as [Hd _].
  destruct (z <? 0); cbn in Hchars; [done|]. injection Hchars as <- _. done.
Qed.

Lemma str_of_Z_one (z : Z) : str_of_Z z = "1" ↔ z = 1.
Proof.
  split; [|by intros ->].
  intros H. destruct (str_of_Z_chars z) as (d & ds & Hchars & _ & Hval & _).
  rewrite H in Hchars. destruct (Z.ltb_spec z 0); cbn in Hchars; [done|].
  injection Hchars as <- <-. change (digits_number ["1"%char]) with 1 in Hval. lia.
Qed.

(** ** [repr(float)] is never [">10"] or ["1"] *)

Lemma repr_format_mark (ds : list ascii) (decpt : Z) :
  "."%char ∈ repr_format ds decpt ∨ "e"%char ∈ repr_format ds decpt.
Proof.
  unfold repr_format. destruct (_ || _).
  - right. unfold repr_exp_form. rewrite elem_of_app. right. by left.
  - left. unfold repr_fixed_form. destruct (_ <=? _).
    + right. by left.
    + destruct (_ <? _).
      * rewrite elem_of_app. right. by left.
      * rewrite !elem_of_app. right. right. by left.
Qed.

Lemma float_repr_not_bucket (f : spec_float) :
  float_repr f ≠ ">10" ∧ float_repr f ≠ "1".
Proof.
  destruct f as [s|s| |s m e]; cbn [float_repr]; try (by destruct s); [done|].
  destruct (repr_digits m e) as [ds decpt].
  assert (∀ t, "."%char ∉ list_ascii_of_string t → "e"%char ∉ list_ascii_of_string t →
            string_of_list_ascii ((if s then ["-"%char] else []) ++ repr_format ds decpt)
              ≠ t) as Hshape.
  { intros t Hdot He Heq. apply (f_equal list_ascii_of_string) in Heq.
    rewrite list_ascii_of_string_of_list_ascii in Heq.
    destruct (repr_format_mark ds decpt) as [Hm|Hm].
    - apply Hdot. rewrite <- Heq, elem_of_app. by right.
    - apply He. rewrite <- Heq, elem_of_app. by right. }
  split; apply Hshape; cbn; rewrite ?not_elem_of_cons; repeat split;
    try apply not_elem_of_nil; done.
Qed.

(** ** [str] *)

Lemma py_str_Ok (v : pyval) (s : string) : py_str v = Ok s → s = str_text v.
Proof.
  destruct v as [t|z|f|b|]; cbn [py_str str_text]; try congruence.
  destruct (_ <? _); congruence.
Qed.

Lemma py_str_not_Fuel (v : pyval) : py_str v ≠ Fuel.
Proof. destruct v as [t|z|f|b|]; cbn [py_str]; try done. by destruct (_ <? _). Qed.

Lemma py_str_int (z : Z) :
  py_str (PyInt z) =
    if decide (Z.abs z < 10 ^ int_max_str_digits) then Ok (str_of_Z z) else Err ValueError.
Proof.
  cbn [py_str]. pose proof (str_too_long (Z.abs z) ltac:(lia)) as Hlong.
  destruct (_ <? _).
  - rewrite decide_False; [done|]. destruct Hlong as [Hlong _]. specialize (Hlong eq_refl). lia.
  - rewrite decide_True; [done|]. destruct Hlong as [_ Hlong].
    destruct (Z.lt_ge_cases (Z.abs z) (10 ^ int_max_str_digits)) as [|Hge]; [done|].
    by specialize (Hlong Hge).
Qed.

Lemma py_int_str_of_Z (z : Z) :
  py_int (PyStr (str_of_Z z)) =
    if decide (Z.abs z < 10 ^ int_max_str_digits) then Ok z else Err ValueError.
Proof.
  cbn [py_int]. rewrite parse_int_str_of_Z.
  pose proof (str_too_long (Z.abs z) ltac:(lia)) as Hlong.
  destruct (_ <? _).
  - rewrite decide_False; [done|]. destruct Hlong as [Hlong _]. specialize (Hlong eq_refl). lia.
  - rewrite decide_True; [done|]. destruct Hlong as [_ Hlong].
    destruct (Z.lt_ge_cases (Z.abs z) (10 ^ int_max_str_digits)) as [|Hge]; [done|].
    by specialize (Hlong Hge).
Qed.

Lemma py_str_int_long (z : Z) :
  10 ^ int_max_str_digits ≤ Z.abs z → py_str (PyInt z) = Err ValueError.
Proof. intros Hz. rewrite py_str_int. apply decide_False. lia. Qed.

Lemma py_int_text_long (z : Z) :
  10 ^ int_max_str_digits ≤ Z.abs z → py_int (PyStr (str_of_Z z)) = Err ValueError.
Proof. intros Hz. rewrite py_int_str_of_Z. apply decide_False. lia. Qed.

Lemma py_int_text_short (z : Z) :
  Z.abs z < 10 ^ int_max_str_digits → py_int (PyStr (str_of_Z z)) = Ok z.
Proof. intros Hz. rewrite py_int_str_of_Z. by apply decide_True. Qed.

(** The limit on the digits of an integer, in both directions. *)
Example int_max_str_digits_ex :
  py_str (PyInt (10 ^ 4300)) = Err ValueError ∧
  py_int (PyStr (str_of_Z (10 ^ 4300))) = Err ValueError ∧
  py_int (PyStr (str_of_Z (- 10 ^ 4300))) = Err ValueError ∧
  py_int (PyStr (str_of_Z (10 ^ 4300 - 1))) = Ok (10 ^ 4300 - 1).
Proof.
  split; [apply py_str_int_long; vm_compute; discriminate|].
  split; [apply py_int_text_long; vm_compute; discriminate|].
  split; [apply py_int_text_long; vm_compute; discriminate|].
  apply py_int_text_short. vm_compute. reflexivity.
Qed.
(** ** price_conversion *)

Lemma str_split_head (sep : ascii) (s : string) :
  ∃ pre rest, str_split sep s = pre :: rest ∧ before_first sep s pre.
Proof.
  induction s as [|c s (pre & rest & Hsplit & Hnot & Hpre)].
  { exists "", []. split; [done|]. split; [apply not_elem_of_nil|by left]. }
  cbn [str_split]. destruct (Ascii.eqb_spec c sep) as [->|Hne].
  - exists "", (str_split sep s). split; [done|].
    split; [apply not_elem_of_nil|]. right. by exists s.
  - rewrite Hsplit. exists (String c pre), rest. split; [done|]. split.
    + cbn [list_ascii_of_string]. rewrite not_elem_of_cons. split; [congruence|done].
    + destruct Hpre as [->|[post ->]]; [by left|]. right. by exists post.
Qed.

Lemma re_sub_non_digits_keep (s : string) : re_sub_non_digits s = keep_digits s.
Proof.
  unfold keep_digits. induction s as [|c s IH]; [done|].
  cbn [re_sub_non_digits list_ascii_of_string]. rewrite filter_cons.
  destruct (decide _) as [Hd|Hd]; cbv beta in Hd; destruct (is_digit c).
  - cbn [string_of_list_ascii]. by rewrite IH.
  - done.
  - by destruct Hd.
  - exact IH.
Qed.

Lemma keep_digits_all_digits (s : string) : all_digits (keep_digits s) = true.
Proof.
  rewrite <- re_sub_non_digits_keep. induction s as [|c s IH]; [done|].
  cbn [re_sub_non_digits]. destruct (is_digit c) eqn:Hc; [|exact IH].
  cbn [all_digits]. by rewrite Hc, IH.
Qed.

(** C3. For every string [s], [price_conversion s] returns the part of
    [s] before the first ["."] with every character that is not an
    ASCII digit removed, a possibly empty string of digits; on
    ["5990.00 руб"], ["199.99"] and ["руб"] it returns ["5990"], ["199"]
    and [""]. *)
Theorem price_conversion_spec :
  (∀ s : string, ∃ pre,
      before_first "." s pre ∧
      price_conversion (PyStr s) = Ok (keep_digits pre) ∧
      all_digits (keep_digits pre) = true) ∧
  price_conversion (PyStr "5990.00 руб") = Ok "5990" ∧
  price_conversion (PyStr "199.99") = Ok "199" ∧
  price_conversion (PyStr "руб") = Ok "".
Proof.
  split; [|by repeat split].
  intros s. destruct (str_split_head "." s) as (pre & rest & Hsplit & Hpre).
  exists pre. split; [done|]. split; [|apply keep_digits_all_digits].
  unfold price_conversion. rewrite Hsplit. by rewrite re_sub_non_digits_keep.
Qed.

(** ** divide *)

Section Divide.
Context {A : Type}.
Implicit Types (lst : list A) (n : Z) (m k : nat).

(** A slice whose bounds lie in order inside the list. *)
Lemma py_slice_inner lst (i j : Z) :
  0 ≤ i ≤ len lst → i ≤ j →
  py_slice lst i j = take (Z.to_nat (j - i)) (drop (Z.to_nat i) lst).
Proof.
  intros Hi Hj. unfold py_slice, slice_bound.
  rewrite (proj2 (Z.ltb_ge i 0)), (proj2 (Z.ltb_ge j 0)) by lia.
  rewrite (Z.min_l i) by lia.
  destruct (Z.min_spec j (len lst)) as [[Hlt ->]|[Hge ->]]; [done|].
  rewrite !take_ge; [done| |]; rewrite length_drop; unfold len in *; lia.
Qed.

Lemma concat_chunks lst m k :
  concat (map (λ i : nat, take m (drop (i * m) lst)) (seq 0 k)) = take (k * m) lst.
Proof.
  induction k as [|k IH]; [done|].
  rewrite seq_S, map_app, concat_app, IH. cbn [map concat].
  rewrite app_nil_r, take_take_drop. f_equal. lia.
Qed.

(** For a positive size, the chunks are the consecutive windows. *)
Lemma divide_pos lst n :
  1 ≤ n →
  divide lst n =
    Ok (map (λ i : nat, take (Z.to_nat n) (drop (i * Z.to_nat n) lst))
          (seq 0 (Z.to_nat (if 0 <? len lst then (len lst - 1) `div` n + 1 else 0)))).
Proof.
  intros Hn. unfold divide, py_range.
  rewrite (proj2 (Z.eqb_neq n 0)), (proj2 (Z.ltb_lt 0 n)) by lia.
  cbn [mbind result_bind]. f_equal. rewrite Z.sub_0_r, map_map.
  apply map_ext_in. intros i Hi%in_seq.
  destruct (Z.ltb_spec 0 (len lst)) as [Hlen|Hlen]; [|simpl in Hi; lia].
  assert (Z.of_nat i ≤ (len lst - 1) `div` n) as Hle.
  { pose proof (Z.div_pos (len lst - 1) n). lia. }
  assert (Z.of_nat i * n ≤ len lst - 1) as Hin.
  { etrans; [apply Z.mul_le_mono_nonneg_r; [lia|exact Hle]|].
    rewrite Z.mul_comm. apply Z.mul_div_le. lia. }
  rewrite py_slice_inner by lia. f_equal; [f_equal; lia|]. f_equal.
  rewrite Z.add_0_l, Z2Nat.inj_mul, Nat2Z.id by lia. done.
Qed.

Lemma chunk_count_cover lst n :
  1 ≤ n →
  (length lst ≤
     Z.to_nat (if 0 <? len lst then (len lst - 1) `div` n + 1 else 0)%Z * Z.to_nat n)%nat.
Proof.
  intros Hn. unfold len.
  destruct (Z.ltb_spec 0 (Z.of_nat (length lst))) as [Hlen|Hlen]; [|simpl; lia].
  pose proof (Z.div_pos (Z.of_nat (length lst) - 1) n).
  pose proof (Z.mul_succ_div_gt (Z.of_nat (length lst) - 1) n).
  apply Nat2Z.inj_le. rewrite Nat2Z.inj_mul, !Z2Nat.id by lia. lia.
Qed.

Lemma divide_singletons lst : divide lst 1 = Ok (map (λ x, [x]) lst).
Proof.
  rewrite divide_pos by lia. f_equal.
  replace (Z.to_nat (if 0 <? len lst then (len lst - 1) `div` 1 + 1 else 0))
    with (length lst).
  2:{ unfold len. destruct (Z.ltb_spec 0 (Z.of_nat (length lst))); [|lia].
      rewrite Z.div_1_r. lia. }
  apply list_eq. intros i. rewrite !list_lookup_fmap.
  destruct (lst !! i) as [x|] eqn:Hx.
  - rewrite lookup_seq_lt by (by eapply lookup_lt_Some). cbn.
    rewrite Nat.mul_1_r. by rewrite (drop_S _ _ _ Hx).
  - rewrite lookup_seq_ge; [done|]. by apply lookup_ge_None.
Qed.

End Divide.

(** C6. For a size [n ≥ 1], [divide lst n] yields finitely many
    non-empty sub-lists, each of length [n] except possibly the last,
    whose concatenation is [lst]; the empty list yields no chunk, size 1
    yields one singleton per element, and [1..250] by 100 yields
    [1..100], [101..200], [201..250]. *)
Theorem divide_spec {A} (lst : list A) (n : Z) :
  1 ≤ n →
  (∃ chunks, divide lst n = Ok chunks ∧ concat chunks = lst ∧
     ∀ i c, chunks !! i = Some c →
       1 ≤ len c ≤ n ∧ ((S i < length chunks)%nat → len c = n)) ∧
  divide (@nil A) n = Ok [] ∧
  divide lst 1 = Ok (map (λ x, [x]) lst) ∧
  divide (seqZ 1 250) 100 = Ok [seqZ 1 100; seqZ 101 100; seqZ 201 50].
Proof.
  intros Hn. split; [|split; [|split]].
  - eexists. split; [by apply divide_pos|].
    pose proof (chunk_count_cover lst n Hn) as Hcover.
    set (cnt := Z.to_nat _) in *. split.
    + rewrite concat_chunks. by apply take_ge.
    + intros i c. rewrite list_lookup_fmap, length_map, length_seq.
      destruct (seq 0 cnt !! i) as [i'|] eqn:Hi; [|done].
      apply lookup_seq in Hi as [-> Hi]. intros [= <-].
      assert ((i * Z.to_nat n < length lst)%nat) as Hstart.
      { subst cnt. unfold len in *.
        destruct (Z.ltb_spec 0 (Z.of_nat (length lst))) as [Hlen|Hlen]; [|simpl in Hi; lia].
        pose proof (Z.div_pos (Z.of_nat (length lst) - 1) n).
        pose proof (Z.mul_div_le (Z.of_nat (length lst) - 1) n).
        apply Nat2Z.inj_lt. rewrite Nat2Z.inj_mul, Z2Nat.id by lia. nia. }
      unfold len. rewrite length_take, length_drop. split; [lia|].
      intros Hnext.
      assert ((S i * Z.to_nat n ≤ length lst)%nat) as Hend; [|lia].
      subst cnt. unfold len in *.
      destruct (Z.ltb_spec 0 (Z.of_nat (length lst))) as [Hlen|Hlen]; [|simpl in Hi; lia].
      pose proof (Z.div_pos (Z.of_nat (length lst) - 1) n).
      pose proof (Z.mul_div_le (Z.of_nat (length lst) - 1) n).
      apply Nat2Z.inj_le. rewrite Nat2Z.inj_mul, Z2Nat.id by lia. nia.
  - by rewrite divide_pos.
  - apply divide_singletons.
  - by vm_compute.
Qed.

Lemma divide_spec_witness :
  1 ≤ 2 ∧ ∃ chunks,
    divide [10; 20; 30; 40; 50] 2 = Ok chunks ∧ concat chunks = [10; 20; 30; 40; 50].
Proof.
  split; [lia|].
  destruct (divide_spec [10; 20; 30; 40; 50] 2 ltac:(lia)) as ((chunks & H1 & H2 & _) & _).
  exists chunks. split; [exact H1|exact H2].
Defined.

(** C7 as stated fails: a negative size is accepted silently, and an
    empty sequence comes out. *)
Lemma divide_negative_size_silent :
  [7] ≠ [] ∧ -1 ≤ 0 ∧ divide [7] (-1) = Ok [] ∧ ¬ ∃ e, divide [7] (-1) = Err e.
Proof.
  split; [done|]. split; [lia|]. split; [reflexivity|].
  intros [e He]. vm_compute in He. discriminate He.
Qed.

(** C7, amended. For a size [n ≤ 0]: [divide lst 0] fails with the
    [ValueError] of [range] (when the generator is first advanced), and
    for [n < 0] no error is raised and the sequence is empty. *)
Theorem divide_nonpositive_size {A} (lst : list A) (n : Z) :
  n ≤ 0 →
  (n = 0 → divide lst n = Err ValueError) ∧
  (n < 0 → divide lst n = Ok []).
Proof.
  intros Hn. split.
  - intros ->. reflexivity.
  - intros Hneg. unfold divide, py_range.
    rewrite (proj2 (Z.eqb_neq n 0)), (proj2 (Z.ltb_ge 0 n)) by lia.
    rewrite (proj2 (Z.ltb_ge (len lst) 0)) by (unfold len; lia).
    reflexivity.
Qed.

Lemma divide_nonpositive_size_witness :
  0 ≤ 0 ∧ divide [7; 8] 0 = Err ValueError.
Proof.
  split; [lia|].
  exact (proj1 (divide_nonpositive_size [7; 8] 0 ltac:(lia)) eq_refl).
Defined.

(** ** [list.remove] *)

Lemma filter_ext_in {A} (P Q : A → Prop) `{∀ x, Decision (P x), ∀ x, Decision (Q x)}
    (l : list A) :
  (∀ x, x ∈ l → (P x ↔ Q x)) → filter P l = filter Q l.
Proof.
  induction l as [|a l IH]; intros Hext; [done|].
  rewrite !filter_cons. rewrite IH by (intros x Hx; apply Hext; by right).
  pose proof (Hext a ltac:(by left)) as Ha.
  destruct (decide (P a)), (decide (Q a)); [done|tauto|tauto|done].
Qed.

Lemma filter_all {A} (P : A → Prop) `{∀ x, Decision (P x)} (l : list A) :
  (∀ x, x ∈ l → P x) → filter P l = l.
Proof.
  induction l as [|a l IH]; intros Hall; [done|].
  rewrite filter_cons, decide_True by (apply Hall; by left).
  f_equal. apply IH. intros x Hx. apply Hall. by right.
Qed.

Lemma list_remove_first_in (x : string) (l : list string) :
  x ∈ l → ∃ l', list_remove_first x l = Ok l'.
Proof.
  induction l as [|y l IH]; intros Hx; [by apply elem_of_nil in Hx|].
  cbn [list_remove_first]. destruct (decide (x = y)) as [->|Hne]; [by eexists|].
  apply elem_of_cons in Hx as [?|Hx]; [done|].
  destruct (IH Hx) as [l' ->]. by eexists.
Qed.

Lemma list_remove_first_spec (x : string) (l l' : list string) :
  list_remove_first x l = Ok l' →
  l ≡ₚ x :: l' ∧ (NoDup l → l' = filter (λ y, y ≠ x) l).
Proof.
  revert l'. induction l as [|y l IH]; intros l' Hrm; [done|].
  cbn [list_remove_first] in Hrm. destruct (decide (x = y)) as [->|Hne].
  - injection Hrm as ->. split; [done|]. intros [Hy _]%NoDup_cons.
    rewrite filter_cons, decide_False by (intros Hc; by apply Hc).
    symmetry. apply filter_all. intros z Hz ->. done.
  - destruct (list_remove_first x l) as [l''| |] eqn:Hl; [|done..].
    cbn in Hrm. injection Hrm as <-.
    destruct (IH l'' eq_refl) as [Hperm Hnd]. split.
    + rewrite Hperm. apply Permutation_swap.
    + intros [_ Hl']%NoDup_cons.
      rewrite filter_cons, decide_True by congruence. f_equal. by apply Hnd.
Qed.

(** ** The stock of a matched row *)

Lemma float_truncates_div (m : positive) (e : Z) :
  float_truncates m e (if 0 <=? e then Z.pos m * 2 ^ e else Z.pos m / 2 ^ (- e)).
Proof.
  unfold float_truncates. destruct (Z.leb_spec 0 e) as [|He]; [done|].
  assert (0 < 2 ^ (- e)) as Hp by (apply Z.pow_pos_nonneg; lia).
  pose proof (Z.div_mod (Z.pos m) (2 ^ (- e)) ltac:(lia)) as Hdm.
  pose proof (Z.mod_pos_bound (Z.pos m) (2 ^ (- e)) Hp) as Hmod.
  lia.
Qed.

Lemma float_truncates_functional (m : positive) (e a b : Z) :
  float_truncates m e a → float_truncates m e b → a = b.
Proof.
  unfold float_truncates. destruct (0 <=? e); [congruence|].
  assert (0 < 2 ^ (- e) ∨ 2 ^ (- e) = 0) as [Hp|Hz].
  { pose proof (Z.pow_nonneg 2 (- e)). lia. }
  - intros [Ha1 Ha2] [Hb1 Hb2]. nia.
  - rewrite Hz. lia.
Qed.

(** The stock that lines 193-199 compute follows the bucketing rule. *)
Lemma stock_of_rule (w : watch) : quantity_rule (dict_get w "Количество") (stock_of w).
Proof.
  unfold stock_of. destruct (dict_get w "Количество") as [s|z|f|b|].
  - cbn [py_str str_text]. cbn.
    destruct (decide (s = ">10")) as [->|Hmany]; [constructor|].
    destruct (decide (s = "1")) as [->|Hone]; [constructor|].
    destruct (parse_int s) as [z|] eqn:Hparse.
    + apply rule_text; [done..|]. by apply parse_int_spec.
    + apply rule_text_error; [done..|]. intros z Hz%parse_int_spec. congruence.
  - rewrite py_str_int. destruct (decide (Z.abs z < _)) as [Hshort|Hlong].
    + cbn. rewrite decide_False by apply str_of_Z_not_many.
      destruct (decide (str_of_Z z = "1")) as [Hone|Hone].
      * apply str_of_Z_one in Hone as ->. constructor.
      * apply rule_int; [|done]. intros ->. by apply Hone.
    + cbn. apply rule_int_long. lia.
  - destruct (float_repr_not_bucket f) as [Hmany Hone].
    cbn [py_str str_text]. cbn. rewrite !decide_False by done.
    destruct f as [s|s| |s m e]; cbn [float_trunc]; try constructor.
    apply float_truncates_div.
  - destruct b; cbn; rewrite !decide_False by done;
      [exact (rule_bool true)|exact (rule_bool false)].
  - cbn. rewrite !decide_False by done. constructor.
Qed.

Lemma quantity_rule_functional (v : pyval) (r1 r2 : result Z) :
  quantity_rule v r1 → quantity_rule v r2 → r1 = r2.
Proof.
  intros H1 H2.
  destruct H1 as [| | |s z Hm Ho Hlit|s Hm Ho Hno|z Hz Hshort|z Hlong|s|s m e a Ha|s| |b|];
    inversion H2 as [| | |s' z' Hm' Ho' Hlit'|s' Hm' Ho' Hno'|z' Hz' Hshort'|z' Hlong'
                    |s'|s' m' e' a' Ha'|s'| |b'|]; subst; try done.
  - f_equal. by eapply int_literal_functional.
  - by destruct (Hno' z).
  - by destruct (Hno z').
  - lia.
  - lia.
  - by rewrite (float_truncates_functional _ _ _ _ Ha Ha').
Qed.

(** The rule and lines 193-199 give the same stock, or the same
    error. *)
Lemma stock_of_spec (w : watch) (r : result Z) :
  quantity_rule (dict_get w "Количество") r ↔ stock_of w = r.
Proof.
  split.
  - intros Hr. eapply quantity_rule_functional; [apply stock_of_rule|exact Hr].
  - intros <-. apply stock_of_rule.
Qed.

Lemma stock_of_not_Fuel (w : watch) : stock_of w ≠ Fuel.
Proof. intros H. pose proof (stock_of_rule w) as Hr. rewrite H in Hr. inversion Hr. Qed.

Lemma stock_of_cases (w : watch) (z : Z) :
  stock_of w = Ok z → z = 100 ∨ z = 0 ∨ py_int (dict_get w "Количество") = Ok z.
Proof.
  unfold stock_of. destruct (py_str _) as [count| |]; cbn; [|done..].
  repeat case_decide; [intros [= <-]; tauto..|tauto].
Qed.

(** ** The first loop of create_stocks *)

Lemma create_stocks_loop_app (pre post : list watch) (stocks : list stock_rec)
    (ids : list string) :
  create_stocks_loop (pre ++ post) stocks ids =
    match create_stocks_loop pre stocks ids with
    | (Ok stocks1, ids1) => create_stocks_loop post stocks1 ids1
    | other => other
    end.
Proof.
  revert stocks ids. induction pre as [|w pre IH]; intros stocks ids; [done|].
  cbn [app create_stocks_loop].
  destruct (py_str _) as [code| |]; [|done..].
  destruct (decide (_ ∈ ids)); [|apply IH].
  destruct (stock_of w); [|done..].
  destruct (list_remove_first _ ids); [|done..]. apply IH.
Qed.

(** One turn of the loop on a row whose code prints. *)
Lemma create_stocks_loop_cons (w : watch) (ws : list watch) (stocks : list stock_rec)
    (ids : list string) :
  code_prints w →
  create_stocks_loop (w :: ws) stocks ids =
    if decide (code_of w ∈ ids) then
      match stock_of w with
      | Ok stock =>
          match list_remove_first (code_of w) ids with
          | Ok ids' => create_stocks_loop ws (stocks ++ [MkStock (code_of w) stock]) ids'
          | Err e => (Err e, ids)
          | Fuel => (Fuel, ids)
          end
      | Err e => (Err e, ids)
      | Fuel => (Fuel, ids)
      end
    else create_stocks_loop ws stocks ids.
Proof. intros Hw. cbn [create_stocks_loop]. by rewrite Hw. Qed.

(** What a completed run of the loop has done: the code of every row
    was printed, records were appended, one per matched row, and the
    matched identifiers were taken out of the candidate list. *)
Lemma create_stocks_loop_Ok (ws : list watch) (stocks stocks' : list stock_rec)
    (ids ids' : list string) :
  create_stocks_loop ws stocks ids = (Ok stocks', ids') →
  ∃ added,
    stocks' = stocks ++ added ∧
    map s_offer_id added ++ ids' ≡ₚ ids ∧
    Forall (λ s, ∃ w, w ∈ ws ∧ s_offer_id s = code_of w ∧ stock_of w = Ok (s_stock s))
      added ∧
    (NoDup ids → ids' = filter (λ id, id ∉ map code_of ws) ids).
Proof.
  revert stocks ids. induction ws as [|w ws IH]; intros stocks ids Hrun.
  { cbn in Hrun. injection Hrun as <- <-. exists []. rewrite app_nil_r.
    split; [done|]. split; [done|]. split; [constructor|].
    intros _. symmetry. apply filter_all. intros x _. apply not_elem_of_nil. }
  assert (code_prints w) as Hw.
  { cbn [create_stocks_loop] in Hrun. unfold code_prints.
    destruct (py_str _) as [code| |] eqn:Hcode; [|done..].
    by rewrite (py_str_Ok _ _ Hcode). }
  rewrite (create_stocks_loop_cons _ _ _ _ Hw) in Hrun.
  destruct (decide (code_of w ∈ ids)) as [Hin|Hnin].
  - destruct (stock_of w) as [stock| |] eqn:Hstock; [|done..].
    destruct (list_remove_first (code_of w) ids) as [ids1| |] eqn:Hrm; [|done..].
    destruct (list_remove_first_spec _ _ _ Hrm) as [Hperm Hnd].
    destruct (IH _ _ Hrun) as (added & -> & Hp & Hall & Hfil).
    exists (MkStock (code_of w) stock :: added).
    split; [by rewrite <- app_assoc|]. split.
    { change (code_of w :: (map s_offer_id added ++ ids') ≡ₚ ids).
      by rewrite Hperm, Hp. }
    split.
    + constructor; [exists w; split; [by left|done]|].
      eapply Forall_impl; [exact Hall|]. intros s (w' & ? & ?). exists w'.
      split; [by right|done].
    + intros Hids.
      assert (NoDup ids1) as Hids1.
      { rewrite Hperm in Hids. by apply NoDup_cons in Hids as [_ ?]. }
      rewrite (Hfil Hids1).
      rewrite (Hnd Hids), list_filter_filter. apply list_filter_iff.
      intros x. cbn [map]. rewrite not_elem_of_cons. tauto.
  - destruct (IH _ _ Hrun) as (added & -> & Hp & Hall & Hfil).
    exists added. split; [done|]. split; [done|]. split.
    + eapply Forall_impl; [exact Hall|]. intros s (w' & ? & ?). exists w'.
      split; [by right|done].
    + intros Hids. rewrite (Hfil Hids). apply filter_ext_in.
      intros x Hx. cbn [map]. rewrite not_elem_of_cons.
      split; [|tauto]. intros Hn. split; [|done]. by intros ->.
Qed.

(** A completed run of the loop printed the code of every row. *)
Lemma create_stocks_loop_prints (ws : list watch) (stocks stocks' : list stock_rec)
    (ids ids' : list string) :
  create_stocks_loop ws stocks ids = (Ok stocks', ids') → Forall code_prints ws.
Proof.
  revert stocks ids. induction ws as [|w ws IH]; intros stocks ids Hrun; [constructor|].
  assert (code_prints w) as Hw.
  { cbn [create_stocks_loop] in Hrun. unfold code_prints.
    destruct (py_str _) as [code| |] eqn:Hcode; [|done..].
    by rewrite (py_str_Ok _ _ Hcode). }
  constructor; [done|].
  rewrite (create_stocks_loop_cons _ _ _ _ Hw) in Hrun.
  destruct (decide _); [|by eapply IH].
  destruct (stock_of w); [|done..]. destruct (list_remove_first _ _); [|done..].
  by eapply IH.
Qed.

(** ** create_stocks on list values *)

Lemma create_stocks_on_Ok (ws : list watch) (ids : list string) (stocks : list stock_rec) :
  fst (create_stocks_on ws ids) = Ok stocks →
  ∃ added ids',
    create_stocks_loop ws [] ids = (Ok added, ids') ∧
    stocks = added ++ map (λ id, MkStock id 0) ids' ∧
    snd (create_stocks_on ws ids) = ids'.
Proof.
  unfold create_stocks_on.
  destruct (create_stocks_loop ws [] ids) as [[added| |] ids'] eqn:Hloop; [|done..].
  cbn. intros [= <-]. by exists added, ids'.
Qed.

(** C2 as stated fails: the stock is [int] of the quantity cell, not
    the integer parse of its text.  A numeric cell that holds 2.5 is a
    float; its text ["2.5"] is no integer literal, and [create_stocks]
    does not fail on it but returns the stock 2. *)
Lemma create_stocks_float_quantity :
  py_str (PyFloat (S754_finite false 5629499534213120 (-51))) = Ok "2.5" ∧
  (∀ z, ¬ int_literal "2.5" z) ∧
  fst (create_stocks_on
         [Sim.row (PyStr "A") (PyFloat (S754_finite false 5629499534213120 (-51)))
            (PyStr "")] ["A"])
    = Ok [MkStock "A" 2].
Proof.
  split; [vm_compute; reflexivity|]. split; [|vm_compute; reflexivity].
  intros z Hz%parse_int_spec. vm_compute in Hz. discriminate.
Qed.

(** C2, amended. A record whose code, as text, is in the candidate list
    when the loop reaches it gets its stock from the quantity cell by
    the bucketing rule [quantity_rule], which gives every cell one
    outcome.  A cell whose text is [">10"] gives 100 and one whose text
    is ["1"] gives 0.  Any other text cell gives the integer it is a
    literal of, any other integer cell its value, a float cell its value
    cut toward zero, a boolean cell 0 or 1.  When the rule gives a stock,
    [create_stocks] appends the record with this stock; [create_stocks]
    raises ValueError on a text that is no integer literal, on an
    integer too long to print and on a NaN, OverflowError on an
    infinity, and TypeError on an absent cell. *)
Theorem create_stocks_bucketing (pre post : list watch) (w : watch) (code : string)
    (ids : list string) (stocks1 : list stock_rec) (ids1 : list string) :
  create_stocks_loop pre [] ids = (Ok stocks1, ids1) →
  py_str (dict_get w "Код") = Ok code →
  code ∈ ids1 →
  (∃ r, quantity_rule (dict_get w "Количество") r) ∧
  ∀ r, quantity_rule (dict_get w "Количество") r →
    match r with
    | Ok z =>
        (∃ stocks, fst (create_stocks_on (pre ++ [w]) ids) = Ok stocks) ∧
        (∀ stocks, fst (create_stocks_on (pre ++ w :: post) ids) = Ok stocks →
           stocks !! length stocks1 = Some (MkStock code z))
    | Err e => fst (create_stocks_on (pre ++ w :: post) ids) = Err e
    | Fuel => False
    end.
Proof.
  intros Hpre Hcode Hin. split; [exists (stock_of w); apply stock_of_rule|].
  intros r Hr%stock_of_spec.
  destruct (list_remove_first_in _ _ Hin) as [ids2 Hrm].
  assert (∀ rest, create_stocks_loop (pre ++ w :: rest) [] ids =
            match stock_of w with
            | Ok stock => create_stocks_loop rest (stocks1 ++ [MkStock code stock]) ids2
            | Err e => (Err e, ids1)
            | Fuel => (Fuel, ids1)
            end) as Hstep.
  { intros rest. rewrite create_stocks_loop_app, Hpre. cbn [create_stocks_loop].
    rewrite Hcode. rewrite decide_True by done. by rewrite Hrm. }
  destruct r as [z|e|].
  - split.
    + unfold create_stocks_on. rewrite Hstep, Hr. cbn. by eexists.
    + intros stocks (added & ids' & Hloop & -> & _)%create_stocks_on_Ok.
      rewrite Hstep, Hr in Hloop.
      apply create_stocks_loop_Ok in Hloop as (more & -> & _).
      rewrite <- !app_assoc. rewrite lookup_app_r by done.
      by rewrite Nat.sub_diag.
  - unfold create_stocks_on. by rewrite Hstep, Hr.
  - by apply stock_of_not_Fuel in Hr.
Qed.

Lemma create_stocks_bucketing_witness :
  create_stocks_loop [Sim.row (PyStr "A") (PyStr ">10") (PyStr "")] [] ["A"; "7"; "B"]
    = (Ok [MkStock "A" 100], ["7"; "B"]) ∧
  py_str (dict_get (Sim.row (PyInt 7) (PyStr " 1_2 ") (PyStr "10 руб")) "Код") = Ok "7" ∧
  "7" ∈ ["7"; "B"] ∧
  quantity_rule (dict_get (Sim.row (PyInt 7) (PyStr " 1_2 ") (PyStr "10 руб")) "Количество")
    (Ok 12) ∧
  ∀ stocks,
    fst (create_stocks_on
           ([Sim.row (PyStr "A") (PyStr ">10") (PyStr "")] ++
            [Sim.row (PyInt 7) (PyStr " 1_2 ") (PyStr "10 руб")]) ["A"; "7"; "B"])
      = Ok stocks →
    stocks !! 1%nat = Some (MkStock "7" 12).
Proof.
  set (a := Sim.row (PyStr "A") (PyStr ">10") (PyStr "")).
  set (w := Sim.row (PyInt 7) (PyStr " 1_2 ") (PyStr "10 руб")).
  assert (create_stocks_loop [a] [] ["A"; "7"; "B"] = (Ok [MkStock "A" 100], ["7"; "B"]))
    as Hpre by (vm_compute; reflexivity).
  assert (py_str (dict_get w "Код") = Ok "7") as Hcode by (vm_compute; reflexivity).
  assert ("7" ∈ ["7"; "B"]) as Hin by left.
  assert (quantity_rule (dict_get w "Количество") (Ok 12)) as Hrule.
  { replace (dict_get w "Количество") with (PyStr " 1_2 ") by (vm_compute; reflexivity).
    apply rule_text; [discriminate..|]. apply parse_int_spec. vm_compute. reflexivity. }
  split; [exact Hpre|]. split; [exact Hcode|]. split; [exact Hin|]. split; [exact Hrule|].
  destruct (create_stocks_bucketing [a] [] w "7" _ _ _ Hpre Hcode Hin) as [_ H].
  destruct (H _ Hrule) as [_ Hrec]. exact Hrec.
Defined.

Lemma create_stocks_on_ids (ws : list watch) (ids : list string) (stocks : list stock_rec) :
  fst (create_stocks_on ws ids) = Ok stocks → map s_offer_id stocks ≡ₚ ids.
Proof.
  intros (added & ids' & Hloop & -> & _)%create_stocks_on_Ok.
  apply create_stocks_loop_Ok in Hloop as (added' & -> & Hperm & _).
  rewrite map_app, map_map. cbn. by rewrite map_id.
Qed.

(** C4 as stated fails: an identifier listed twice gets two records. *)
Lemma create_stocks_duplicate_offer :
  fst (create_stocks_on [Sim.row (PyStr "A") (PyStr "5") (PyStr "")] ["A"; "A"])
    = Ok [MkStock "A" 5; MkStock "A" 0] ∧
  ¬ stocks_cover [Sim.row (PyStr "A") (PyStr "5") (PyStr "")] ["A"; "A"]
      [MkStock "A" 5; MkStock "A" 0].
Proof.
  split; [vm_compute; reflexivity|].
  intros [Hnd _]. cbn in Hnd. apply NoDup_cons in Hnd as [Hnot _].
  apply Hnot. left.
Qed.

(** C4, amended. For every inventory list and every offer-identifier
    list without repeated identifiers, the list that [create_stocks]
    returns has at most one record per identifier, a record with stock 0
    for every identifier that no inventory record carries, and no record
    for an identifier that is not an offer. *)
Theorem create_stocks_cover (ws : list watch) (ids : list string)
    (stocks : list stock_rec) :
  NoDup ids →
  fst (create_stocks_on ws ids) = Ok stocks →
  stocks_cover ws ids stocks.
Proof.
  intros Hids Hrun. pose proof (create_stocks_on_ids _ _ _ Hrun) as Hperm.
  split; [by rewrite Hperm|]. split.
  - intros id Hid Hcode.
    apply create_stocks_on_Ok in Hrun as (added & ids' & Hloop & -> & _).
    apply create_stocks_loop_Ok in Hloop as (_ & _ & _ & _ & Hfil).
    apply elem_of_app. right. apply list_elem_of_fmap. exists id. split; [done|].
    rewrite (Hfil Hids). by apply list_elem_of_filter.
  - intros s Hs. rewrite <- Hperm. apply list_elem_of_fmap. by exists s.
Qed.

Lemma create_stocks_cover_witness :
  NoDup ["A"; "B"; "C"] ∧
  fst (create_stocks_on
         [Sim.row (PyStr "A") (PyStr ">10") (PyStr ""); Sim.row (PyStr "B") (PyInt 3) (PyStr "")]
         ["A"; "B"; "C"])
    = Ok [MkStock "A" 100; MkStock "B" 3; MkStock "C" 0] ∧
  stocks_cover
    [Sim.row (PyStr "A") (PyStr ">10") (PyStr ""); Sim.row (PyStr "B") (PyInt 3) (PyStr "")]
    ["A"; "B"; "C"] [MkStock "A" 100; MkStock "B" 3; MkStock "C" 0].
Proof.
  set (ws := [Sim.row (PyStr "A") (PyStr ">10") (PyStr "");
              Sim.row (PyStr "B") (PyInt 3) (PyStr "")]).
  assert (NoDup ["A"; "B"; "C"]) as Hnd
    by (apply (bool_decide_unpack (NoDup ["A"; "B"; "C"])); vm_compute; exact I).
  assert (fst (create_stocks_on ws ["A"; "B"; "C"])
            = Ok [MkStock "A" 100; MkStock "B" 3; MkStock "C" 0]) as Hrun
    by (vm_compute; reflexivity).
  split; [exact Hnd|]. split; [exact Hrun|].
  exact (create_stocks_cover ws _ _ Hnd Hrun).
Defined.

(** C8 as stated fails: a negative quantity text gives a negative
    stock. *)
Lemma create_stocks_negative_stock :
  fst (create_stocks_on [Sim.row (PyStr "A") (PyStr "-5") (PyStr "")] ["A"])
    = Ok [MkStock "A" (-5)] ∧
  ¬ stocks_nonneg [MkStock "A" (-5)].
Proof.
  split; [vm_compute; reflexivity|].
  intros H. apply Forall_cons in H as [H _]. cbn in H. lia.
Qed.

(** C8, amended. Every record that [create_stocks] returns has a text
    identifier and an integer stock; the stock is 100, 0 or the integer
    value of the quantity of a matched row, so it is ≥ 0 whenever no
    matched row has a negative quantity. *)
Theorem create_stocks_nonneg (ws : list watch) (ids : list string)
    (stocks : list stock_rec) :
  (∀ w z, w ∈ ws → code_of w ∈ ids →
          py_int (dict_get w "Количество") = Ok z → 0 ≤ z) →
  fst (create_stocks_on ws ids) = Ok stocks →
  stocks_nonneg stocks.
Proof.
  intros Hq Hrun. pose proof (create_stocks_on_ids _ _ _ Hrun) as Hperm.
  apply create_stocks_on_Ok in Hrun as (added & ids' & Hloop & -> & _).
  apply create_stocks_loop_Ok in Hloop as (added' & [= <-] & _ & Hall & _).
  apply Forall_app. split.
  - apply Forall_forall. intros s Hs.
    rewrite Forall_forall in Hall. destruct (Hall s Hs) as (w & Hw & Hcode & Hstock).
    assert (code_of w ∈ ids) as Hin.
    { rewrite <- Hperm, <- Hcode. apply list_elem_of_fmap. exists s.
      split; [done|]. apply elem_of_app. by left. }
    destruct (stock_of_cases _ _ Hstock) as [->|[->|Hint]]; [lia|lia|].
    by eapply Hq.
  - apply Forall_fmap, Forall_forall. intros id _. cbn. lia.
Qed.

Lemma create_stocks_nonneg_witness :
  (∀ w z, w ∈ [Sim.row (PyStr "A") (PyStr "12") (PyStr "")] → code_of w ∈ ["A"; "B"] →
          py_int (dict_get w "Количество") = Ok z → 0 ≤ z) ∧
  fst (create_stocks_on [Sim.row (PyStr "A") (PyStr "12") (PyStr "")] ["A"; "B"])
    = Ok [MkStock "A" 12; MkStock "B" 0] ∧
  stocks_nonneg [MkStock "A" 12; MkStock "B" 0].
Proof.
  set (ws := [Sim.row (PyStr "A") (PyStr "12") (PyStr "")]).
  assert (∀ w z, w ∈ ws → code_of w ∈ ["A"; "B"] →
                 py_int (dict_get w "Количество") = Ok z → 0 ≤ z) as Hq.
  { intros w z Hw _. apply list_elem_of_singleton in Hw as ->.
    vm_compute. intros [= <-]. discriminate. }
  assert (fst (create_stocks_on ws ["A"; "B"]) = Ok [MkStock "A" 12; MkStock "B" 0]) as Hrun
    by (vm_compute; reflexivity).
  split; [exact Hq|]. split; [exact Hrun|].
  exact (create_stocks_nonneg ws _ _ Hq Hrun).
Defined.

(** ** create_stocks on the store *)

Section StoreFacts.
Context {World : Type}.
Implicit Types (st : state World).

Lemma create_stocks_run (wr ir : loc) (ws : list watch) (ids : list string) st :
  heap st !! wr = Some (ListWatch ws) →
  heap st !! ir = Some (ListStr ids) →
  create_stocks wr ir st =
    (fst (create_stocks_on ws ids),
     MkState (<[ir := ListStr (snd (create_stocks_on ws ids))]> (heap st))
       (world st) (stdout st)).
Proof.
  intros Hw Hi. unfold create_stocks, mbind, M_bind, load. rewrite Hw, Hi.
  destruct (create_stocks_on ws ids) as [r ids']. unfold store, lift. cbn.
  by destruct r.
Qed.

Lemma create_prices_run (wr ir : loc) (ws : list watch) (ids : list string) st :
  heap st !! wr = Some (ListWatch ws) →
  heap st !! ir = Some (ListStr ids) →
  create_prices wr ir st = (create_prices_on ws ids, st).
Proof.
  intros Hw Hi. unfold create_prices, mbind, M_bind, load. by rewrite Hw, Hi.
Qed.

(** The store after a call that returns, when no identifier is listed
    twice. *)
Lemma create_stocks_store (wr ir : loc) (ws : list watch) (ids : list string) st st'
    (stocks : list stock_rec) :
  heap st !! wr = Some (ListWatch ws) →
  heap st !! ir = Some (ListStr ids) →
  NoDup ids →
  create_stocks wr ir st = (Ok stocks, st') →
  st' = MkState (<[ir := ListStr (filter (λ id, id ∉ map code_of ws) ids)]> (heap st))
          (world st) (stdout st).
Proof.
  intros Hw Hi Hnd. rewrite (create_stocks_run wr ir ws ids) by done.
  intros [= Hrun <-].
  apply create_stocks_on_Ok in Hrun as (added & ids' & Hloop & _ & ->).
  apply create_stocks_loop_Ok in Hloop as (_ & _ & _ & _ & Hfil).
  by rewrite (Hfil Hnd).
Qed.

(** A call that returns has printed the code of every row. *)
Lemma create_stocks_prints (wr ir : loc) (ws : list watch) (ids : list string) st st'
    (stocks : list stock_rec) :
  heap st !! wr = Some (ListWatch ws) →
  heap st !! ir = Some (ListStr ids) →
  create_stocks wr ir st = (Ok stocks, st') →
  Forall code_prints ws.
Proof.
  intros Hw Hi. rewrite (create_stocks_run wr ir ws ids) by done.
  intros [= Hrun _].
  apply create_stocks_on_Ok in Hrun as (added & ids' & Hloop & _).
  by eapply create_stocks_loop_prints.
Qed.

End StoreFacts.

(** C9 as stated fails: of an identifier listed twice, one copy stays
    in the caller's list although an inventory row matched it. *)
Lemma create_stocks_leaves_matched_duplicate :
  is_Ok (fst (create_stocks 0%nat 1%nat
                (Sim.store_of [Sim.row (PyStr "A") (PyStr "5") (PyStr "")] ["A"; "A"])))
    = true ∧
  heap (snd (create_stocks 0%nat 1%nat
               (Sim.store_of [Sim.row (PyStr "A") (PyStr "5") (PyStr "")] ["A"; "A"])))
    !! 1%nat = Some (ListStr ["A"]) ∧
  ¬ unmatched_only [Sim.row (PyStr "A") (PyStr "5") (PyStr "")] ["A"; "A"] ["A"].
Proof.
  split; [vm_compute; reflexivity|]. split; [vm_compute; reflexivity|].
  intros H. destruct (proj1 (H "A")) as [_ Hnot]; [left|].
  apply Hnot. vm_compute. left.
Qed.

(** C9, amended. [create_stocks] updates the list object behind
    [offer_ids] in place: when that list has no repeated identifier,
    after a call that returns it holds exactly the identifiers that no
    inventory row carries, in their original order; the object behind
    [watch_remnants], every other object, the world and the output are
    unchanged. *)
Theorem create_stocks_frame {World} (wr ir : loc)
    (ws : list watch) (ids : list string) (st st' : state World)
    (stocks : list stock_rec) :
  heap st !! wr = Some (ListWatch ws) →
  heap st !! ir = Some (ListStr ids) →
  NoDup ids →
  create_stocks wr ir st = (Ok stocks, st') →
  ∃ ids',
    st' = MkState (<[ir := ListStr ids']> (heap st)) (world st) (stdout st) ∧
    ids' = filter (λ id, id ∉ map code_of ws) ids ∧
    unmatched_only ws ids ids' ∧
    heap st' !! wr = Some (ListWatch ws) ∧
    ∀ l, l ≠ ir → heap st' !! l = heap st !! l.
Proof.
  intros Hw Hi Hnd Hrun.
  rewrite (create_stocks_store wr ir ws ids st st' stocks Hw Hi Hnd Hrun).
  eexists. split; [done|]. split; [done|].
  assert (wr ≠ ir) as Hne by (intros ->; congruence).
  split; [|split].
  - intros id. rewrite list_elem_of_filter. tauto.
  - cbn. by rewrite list_lookup_insert_ne.
  - intros l Hl. cbn. by rewrite list_lookup_insert_ne.
Qed.

Lemma create_stocks_frame_witness :
  heap (Sim.store_of [Sim.row (PyStr "B") (PyStr "5") (PyStr "")] ["A"; "B"; "C"]) !! 0%nat
    = Some (ListWatch [Sim.row (PyStr "B") (PyStr "5") (PyStr "")]) ∧
  NoDup ["A"; "B"; "C"] ∧
  is_Ok (fst (create_stocks 0%nat 1%nat
                (Sim.store_of [Sim.row (PyStr "B") (PyStr "5") (PyStr "")] ["A"; "B"; "C"])))
    = true ∧
  heap (snd (create_stocks 0%nat 1%nat
               (Sim.store_of [Sim.row (PyStr "B") (PyStr "5") (PyStr "")] ["A"; "B"; "C"])))
    = [ListWatch [Sim.row (PyStr "B") (PyStr "5") (PyStr "")]; ListStr ["A"; "C"]].
Proof.
  set (ws := [Sim.row (PyStr "B") (PyStr "5") (PyStr "")]).
  set (st := Sim.store_of ws ["A"; "B"; "C"]).
  assert (NoDup ["A"; "B"; "C"]) as Hnd
    by (apply (bool_decide_unpack (NoDup ["A"; "B"; "C"])); vm_compute; exact I).
  split; [reflexivity|]. split; [exact Hnd|]. split; [vm_compute; reflexivity|].
  destruct (create_stocks 0%nat 1%nat st) as [r st'] eqn:Hrun.
  assert (r = Ok [MkStock "B" 5; MkStock "A" 0; MkStock "C" 0]) as ->
    by (apply (f_equal fst) in Hrun; vm_compute in Hrun; congruence).
  destruct (create_stocks_frame 0%nat 1%nat ws ["A"; "B"; "C"] st st' _
              eq_refl eq_refl Hnd Hrun) as (ids' & -> & -> & _).
  vm_compute. reflexivity.
Defined.

(** ** get_offer_ids *)

Section Pager.
Context {World : Type} (api : services World).
Implicit Types (st : state World) (ps : list page) (pl : list product).

Lemma call_run {A} (f : World → result A * World) st :
  call f st = (fst (f (world st)), MkState (heap st) (snd (f (world st))) (stdout st)).
Proof. unfold call. by destruct (f (world st)). Qed.

(** The loop touches nothing but the world. *)
Lemma get_offer_ids_loop_frame fuel last pl c s st :
  heap (snd (get_offer_ids_loop api fuel last pl c s st)) = heap st ∧
  stdout (snd (get_offer_ids_loop api fuel last pl c s st)) = stdout st.
Proof.
  revert last pl st. induction fuel as [|fuel IH]; intros last pl st; [done|].
  cbn [get_offer_ids_loop]. unfold mbind, M_bind, get_product_list.
  rewrite call_run.
  destruct (post_product_list api last c s (world st)) as [[p| |] w1]; [|done..].
  cbn [fst snd]. destruct (page_total p =? _); [done|].
  destruct (IH (page_last_id p) (pl ++ page_items p)
              (MkState (heap st) w1 (stdout st))) as [-> ->]. done.
Qed.

Lemma fetch_pages_S n last c s w :
  fetch_pages api (S n) last c s w =
    match post_product_list api last c s w with
    | (Ok p, w1) =>
        let '(r, w2) := fetch_pages api n (page_last_id p) c s w1 in
        (ps ← r; Ok (p :: ps), w2)
    | (Err e, w1) => (Err e, w1)
    | (Fuel, w1) => (Fuel, w1)
    end.
Proof. reflexivity. Qed.

Lemma get_offer_ids_loop_stops k :
  ∀ last pl c s st ps w',
    fetch_pages api (S k) last c s (world st) = (Ok ps, w') →
    (∀ j p, ps !! j = Some p → (page_total p = running_count pl ps j ↔ j = k)) →
    ∀ fuel,
      ((k < fuel)%nat →
         get_offer_ids_loop api fuel last pl c s st =
           (Ok (pl ++ concat (map page_items ps)), MkState (heap st) w' (stdout st))) ∧
      ((fuel ≤ k)%nat → fst (get_offer_ids_loop api fuel last pl c s st) = Fuel).
Proof.
  induction k as [|k IH]; intros last pl c s st ps w' Hfetch Hfirst fuel.
  - rewrite fetch_pages_S in Hfetch.
    destruct (post_product_list api last c s (world st)) as [[p| |] w1] eqn:Hpost;
      [|done..].
    cbn in Hfetch. injection Hfetch as <- <-.
    pose proof (proj2 (Hfirst 0%nat p eq_refl) eq_refl) as Heq.
    unfold running_count in Heq. cbn in Heq. rewrite app_nil_r in Heq.
    destruct fuel as [|fuel]; (split; [intros Hlt|intros Hle]); try lia; [done|].
    cbn [get_offer_ids_loop]. unfold mbind, M_bind, get_product_list.
    rewrite call_run, Hpost. cbn [fst snd].
    rewrite (proj2 (Z.eqb_eq _ _) Heq). cbn. by rewrite app_nil_r.
  - rewrite fetch_pages_S in Hfetch.
    destruct (post_product_list api last c s (world st)) as [[p| |] w1] eqn:Hpost;
      [|done..].
    destruct (fetch_pages api (S k) (page_last_id p) c s w1) as [[ps'| |] w2] eqn:Hrest;
      [|done..].
    cbn in Hfetch. injection Hfetch as <- <-.
    assert (page_total p ≠ len (pl ++ page_items p)) as Hne.
    { intros Heq. enough (0%nat = S k) by done.
      apply (Hfirst 0%nat p eq_refl). unfold running_count. cbn.
      by rewrite app_nil_r. }
    specialize (IH (page_last_id p) (pl ++ page_items p) c s
                  (MkState (heap st) w1 (stdout st)) ps' w2 Hrest).
    cbn [heap world stdout] in IH.
    assert (∀ j q, ps' !! j = Some q →
              (page_total q = running_count (pl ++ page_items p) ps' j ↔ j = k)) as Hfirst'.
    { intros j q Hq. specialize (Hfirst (S j) q Hq).
      unfold running_count in *. cbn in Hfirst. rewrite <- app_assoc.
      rewrite Hfirst. lia. }
    specialize (IH Hfirst').
    destruct fuel as [|fuel]; (split; [intros Hlt|intros Hle]); try lia; [done| |].
    + cbn [get_offer_ids_loop]. unfold mbind, M_bind, get_product_list.
      rewrite call_run, Hpost. cbn [fst snd].
      rewrite (proj2 (Z.eqb_neq _ _) Hne).
      rewrite (proj1 (IH fuel)) by lia. cbn. by rewrite <- app_assoc.
    + cbn [get_offer_ids_loop]. unfold mbind, M_bind, get_product_list.
      rewrite call_run, Hpost. cbn [fst snd].
      rewrite (proj2 (Z.eqb_neq _ _) Hne).
      apply (proj2 (IH fuel)). lia.
Qed.

(** A returned reference names a new object, and nothing else moved
    in the store. *)
Lemma get_offer_ids_fresh fuel c s st ir st1 :
  get_offer_ids api fuel c s st = (Ok ir, st1) →
  ir = length (heap st) ∧ stdout st1 = stdout st ∧
  ∃ ids, heap st1 = heap st ++ [ListStr ids].
Proof.
  unfold get_offer_ids, mbind, M_bind.
  pose proof (get_offer_ids_loop_frame fuel "" [] c s st) as [Hh Ho].
  destruct (get_offer_ids_loop api fuel "" [] c s st) as [[pl| |] st0]; [|done..].
  cbn in Hh, Ho. unfold alloc. intros [= <- <-]. cbn. rewrite Hh, Ho.
  split; [done|]. split; [done|]. by eexists.
Qed.

End Pager.

(** C5. Let the catalog serve pages [ps] along the cursor chain, and let
    page [k] be the first after which the number of accumulated items
    equals the total that the page reports.  Then [get_offer_ids] stops
    exactly there: it has made [k + 1] requests, and returns (as a new
    list) the identifiers of all accumulated items; a run followed for
    [k] turns or fewer is still looping. *)
Theorem get_offer_ids_stops {World} (api : services World) (k : nat)
    (client_id seller_token : string) (st : state World) (ps : list page) (w' : World) :
  fetch_pages api (S k) "" client_id seller_token (world st) = (Ok ps, w') →
  (∀ j p, ps !! j = Some p → (page_total p = running_count [] ps j ↔ j = k)) →
  ∀ fuel,
    ((k < fuel)%nat →
       get_offer_ids api fuel client_id seller_token st =
         (Ok (length (heap st)),
          MkState (heap st ++ [ListStr (map offer_id (concat (map page_items ps)))])
            w' (stdout st))) ∧
    ((fuel ≤ k)%nat → fst (get_offer_ids api fuel client_id seller_token st) = Fuel).
Proof.
  intros Hfetch Hfirst fuel.
  destruct (get_offer_ids_loop_stops api k "" [] client_id seller_token st ps w'
              Hfetch Hfirst fuel) as [Hstop Hrun].
  unfold get_offer_ids, mbind, M_bind. split.
  - intros Hlt. by rewrite (Hstop Hlt).
  - intros Hle. specialize (Hrun Hle).
    by destruct (get_offer_ids_loop _ _ _ _ _ _ _) as [[?| |] ?].
Qed.

Lemma get_offer_ids_stops_witness :
  fetch_pages Sim.api 2 "" "client" "token" Sim.scenario
    = (Ok [MkPage [MkProduct "X1"; MkProduct "X2"] 3 "cursor1"; MkPage [MkProduct "X3"] 3 ""],
       Sim.scenario) ∧
  (∀ j p,
     [MkPage [MkProduct "X1"; MkProduct "X2"] 3 "cursor1"; MkPage [MkProduct "X3"] 3 ""] !! j
       = Some p →
     (page_total p =
        running_count []
          [MkPage [MkProduct "X1"; MkProduct "X2"] 3 "cursor1"; MkPage [MkProduct "X3"] 3 ""] j
      ↔ j = 1%nat)) ∧
  get_offer_ids Sim.api 5 "client" "token" (Sim.start Sim.scenario) =
    (Ok 0%nat, MkState [ListStr ["X1"; "X2"; "X3"]] Sim.scenario []).
Proof.
  set (ps := [MkPage [MkProduct "X1"; MkProduct "X2"] 3 "cursor1";
              MkPage [MkProduct "X3"] 3 ""]).
  assert (fetch_pages Sim.api 2 "" "client" "token" Sim.scenario = (Ok ps, Sim.scenario))
    as Hfetch by (vm_compute; reflexivity).
  assert (∀ j p, ps !! j = Some p → (page_total p = running_count [] ps j ↔ j = 1%nat))
    as Hfirst.
  { intros [|[|j]] p; intros [= <-]; vm_compute; split; intros; congruence. }
  split; [exact Hfetch|]. split; [exact Hfirst|].
  exact (proj1 (get_offer_ids_stops Sim.api 1 "client" "token" (Sim.start Sim.scenario)
                  ps Sim.scenario Hfetch Hfirst 5%nat) ltac:(lia)).
Defined.

(** ** upload_stocks and main *)

Section Orchestration.
Context {World : Type} (api : services World).
Implicit Types (st : state World).

(** Sending chunks touches nothing but the world. *)
Lemma for_each_call_frame {A} (f : A → World → result unit * World) (l : list A) st :
  heap (snd (for_each (λ x, call (f x)) l st)) = heap st ∧
  stdout (snd (for_each (λ x, call (f x)) l st)) = stdout st.
Proof.
  revert st. induction l as [|x l IH]; intros st; [done|].
  cbn [for_each]. unfold mbind, M_bind. rewrite call_run.
  destruct (f x (world st)) as [[[]| |] w]; [|done..].
  cbn [fst snd]. destruct (IH (MkState (heap st) w (stdout st))) as [-> ->]. done.
Qed.

(** The spreadsheet is read into a new object. *)
Lemma download_stock_fresh st wr st1 :
  download_stock api st = (Ok wr, st1) →
  wr = length (heap st) ∧ ∃ ws, heap st1 = heap st ++ [ListWatch ws].
Proof.
  unfold download_stock, mbind, M_bind. rewrite call_run.
  destruct (read_remnants api (world st)) as [[ws| |] w]; [|done..].
  cbn. intros [= <- <-]. split; [done|]. by exists ws.
Qed.

End Orchestration.

(** C10. When the catalog fetch, the transformation and every chunk
    upload succeed, [upload_stocks] returns the pair [(not_empty, stocks)]:
    [stocks] is the list that [create_stocks] builds from the inventory
    and a newly fetched list of offer identifiers, and [not_empty] is
    exactly the records of [stocks] whose stock is not 0, in the same
    order. *)
Theorem upload_stocks_returns {World} (api : services World) (fuel : nat) (wr ir : loc)
    (client_id seller_token : string) (ws : list watch) (st st1 st2 st3 : state World)
    (stocks : list stock_rec) (chunks : list (list stock_rec)) :
  heap st !! wr = Some (ListWatch ws) →
  get_offer_ids api fuel client_id seller_token st = (Ok ir, st1) →
  create_stocks wr ir st1 = (Ok stocks, st2) →
  divide stocks 100 = Ok chunks →
  for_each (λ some_stock, update_stocks api some_stock client_id seller_token) chunks st2
    = (Ok (), st3) →
  ∃ not_empty ids,
    upload_stocks api fuel wr client_id seller_token st = (Ok (not_empty, stocks), st3) ∧
    ir = length (heap st) ∧ heap st1 = heap st ++ [ListStr ids] ∧
    fst (create_stocks_on ws ids) = Ok stocks ∧
    not_empty = filter (λ stock, s_stock stock ≠ 0) stocks ∧
    not_empty `sublist_of` stocks ∧
    ∀ x, x ∈ not_empty ↔ x ∈ stocks ∧ s_stock x ≠ 0.
Proof.
  intros Hw Hids Hstocks Hdiv Hsend.
  destruct (get_offer_ids_fresh api _ _ _ _ _ _ Hids) as (Hir & _ & ids & Hheap).
  exists (filter (λ stock, s_stock stock ≠ 0) stocks), ids.
  split; [|split; [done|]; split; [done|]; split; [|split; [done|]; split]].
  - unfold upload_stocks. run_bind. rewrite Hids.
    run_bind. rewrite Hstocks.
    run_bind. unfold lift at 1. rewrite Hdiv.
    run_bind. by rewrite Hsend.
  - assert (heap st1 !! wr = Some (ListWatch ws)) as Hw1.
    { rewrite Hheap. apply lookup_app_l_Some. exact Hw. }
    assert (heap st1 !! ir = Some (ListStr ids)) as Hi1.
    { rewrite Hheap, Hir. by apply list_lookup_middle. }
    rewrite (create_stocks_run wr ir ws ids st1 Hw1 Hi1) in Hstocks.
    by injection Hstocks as -> _.
  - apply sublist_filter.
  - intros x. rewrite list_elem_of_filter. tauto.
Qed.

Lemma upload_stocks_returns_witness :
  heap Sim.loaded !! 0%nat = Some (ListWatch (Sim.remnants Sim.scenario)) ∧
  get_offer_ids Sim.api 5 "client" "token" Sim.loaded = (Ok 1%nat, Sim.fetched) ∧
  create_stocks 0%nat 1%nat Sim.fetched
    = (Ok [MkStock "X1" 100; MkStock "X2" 0; MkStock "X3" 0], Sim.transformed) ∧
  divide [MkStock "X1" 100; MkStock "X2" 0; MkStock "X3" 0] 100
    = Ok [[MkStock "X1" 100; MkStock "X2" 0; MkStock "X3" 0]] ∧
  fst (upload_stocks Sim.api 5 0%nat "client" "token" Sim.loaded)
    = Ok ([MkStock "X1" 100], [MkStock "X1" 100; MkStock "X2" 0; MkStock "X3" 0]).
Proof.
  set (stocks := [MkStock "X1" 100; MkStock "X2" 0; MkStock "X3" 0]).
  set (send := for_each (λ some_stock, update_stocks Sim.api some_stock "client" "token")
                 [stocks] Sim.transformed).
  assert (heap Sim.loaded !! 0%nat = Some (ListWatch (Sim.remnants Sim.scenario))) as Hw
    by (vm_compute; reflexivity).
  assert (get_offer_ids Sim.api 5 "client" "token" Sim.loaded = (Ok 1%nat, Sim.fetched))
    as Hids by (vm_compute; reflexivity).
  assert (create_stocks 0%nat 1%nat Sim.fetched = (Ok stocks, Sim.transformed)) as Hstocks
    by (vm_compute; reflexivity).
  assert (divide stocks 100 = Ok [stocks]) as Hdiv by (vm_compute; reflexivity).
  assert (send = (Ok (), snd send)) as Hsend by (vm_compute; reflexivity).
  repeat (split; [assumption|]).
  destruct (upload_stocks_returns Sim.api 5 0%nat 1%nat "client" "token" _
              Sim.loaded Sim.fetched Sim.transformed (snd send) stocks [stocks]
              Hw Hids Hstocks Hdiv Hsend)
    as (not_empty & ids & -> & _ & _ & _ & -> & _).
  vm_compute. reflexivity.
Defined.

(** ** The price update of main *)

(** One turn of the loop on a row whose code prints. *)
Lemma create_prices_loop_cons (w : watch) (ws : list watch) (prices : list price_rec)
    (ids : list string) :
  code_prints w →
  create_prices_loop (w :: ws) prices ids =
    if decide (code_of w ∈ ids) then
      p ← price_conversion (dict_get w "Цена");
      create_prices_loop ws (prices ++ [MkPrice "UNKNOWN" "RUB" (code_of w) "0" p]) ids
    else create_prices_loop ws prices ids.
Proof. intros Hw. cbn [create_prices_loop]. by rewrite Hw. Qed.

Lemma create_prices_loop_unmatched (ws : list watch) (prices : list price_rec)
    (ids : list string) :
  Forall code_prints ws →
  (∀ w, w ∈ ws → code_of w ∉ ids) → create_prices_loop ws prices ids = Ok prices.
Proof.
  intros Hp. induction Hp as [|w ws Hw _ IH]; intros Hnone; [done|].
  rewrite create_prices_loop_cons by done.
  rewrite decide_False by (apply Hnone; by left).
  apply IH. intros w' Hw'. apply Hnone. by right.
Qed.

(** Once [create_stocks] has run on a list without repeated
    identifiers, [create_prices] on the same list object finds no row
    to price. *)
Lemma create_prices_after_create_stocks {World} (wr ir : loc) (ws : list watch)
    (ids : list string) (st st' st'' : state World) (stocks : list stock_rec) :
  heap st !! wr = Some (ListWatch ws) →
  heap st !! ir = Some (ListStr ids) →
  NoDup ids →
  create_stocks wr ir st = (Ok stocks, st') →
  heap st'' = heap st' →
  create_prices wr ir st'' = (Ok [], st'').
Proof.
  intros Hw Hi Hnd Hrun Hheap.
  assert (wr ≠ ir) as Hne by (intros ->; congruence).
  rewrite (create_stocks_store wr ir ws ids st st' stocks Hw Hi Hnd Hrun) in Hheap.
  cbn [heap] in Hheap.
  rewrite (create_prices_run wr ir ws (filter (λ id, id ∉ map code_of ws) ids)).
  - f_equal. apply create_prices_loop_unmatched.
    { by eapply create_stocks_prints. }
    intros w Hw0. rewrite list_elem_of_filter. intros [Hnot _]. apply Hnot.
    apply list_elem_of_fmap. by exists w.
  - by rewrite Hheap, list_lookup_insert_ne.
  - rewrite Hheap. apply list_lookup_insert_eq. by eapply lookup_lt_Some.
Qed.

(** X17. Whenever the catalog lists no identifier twice, the price list that
    [main] builds is empty. *)
Lemma main_try_prices_empty {World} (api : services World) (fuel : nat)
    (client_id seller_token : string) (st st1 st' : state World) (ir : loc)
    (ids : list string) (stocks : list stock_rec) (prices : list price_rec) :
  get_offer_ids api fuel client_id seller_token st = (Ok ir, st1) →
  heap st1 !! ir = Some (ListStr ids) →
  NoDup ids →
  main_try api fuel client_id seller_token st = (Ok (stocks, prices), st') →
  prices = [].
Proof.
  intros Hids Hi Hnd Hmain. unfold main_try in Hmain.
  run_bind in Hmain. rewrite Hids in Hmain.
  run_bind in Hmain.
  destruct (download_stock api st1) as [[wr| |] st2] eqn:Hdl; [|done..].
  destruct (download_stock_fresh api _ _ _ Hdl) as (Hwr & ws & Hheap2).
  assert (heap st2 !! wr = Some (ListWatch ws)) as Hw2.
  { rewrite Hheap2, Hwr. by apply list_lookup_middle. }
  assert (heap st2 !! ir = Some (ListStr ids)) as Hi2.
  { rewrite Hheap2. by apply lookup_app_l_Some. }
  run_bind in Hmain.
  destruct (create_stocks wr ir st2) as [[stocks0| |] st3] eqn:Hcs; [|done..].
  run_bind in Hmain. unfold lift at 1 in Hmain.
  destruct (divide stocks0 100) as [chunks| |]; [|done..].
  run_bind in Hmain.
  pose proof (for_each_call_frame
                (λ x, post_stocks api x client_id seller_token) chunks st3) as [Hh _].
  change (for_each (λ x, call (post_stocks api x client_id seller_token)) chunks st3)
    with (for_each (λ x, update_stocks api x client_id seller_token) chunks st3) in Hh.
  destruct (for_each _ chunks st3) as [[[]| |] st4]; [|done..]. cbn [snd] in Hh.
  run_bind in Hmain.
  rewrite (create_prices_after_create_stocks wr ir ws ids st2 st3 st4 stocks0
             Hw2 Hi2 Hnd Hcs Hh) in Hmain.
  run_bind in Hmain. unfold lift at 1 in Hmain. cbn in Hmain.
  by injection Hmain as _ <- _.
Qed.

(** C1, at the end-to-end scenario (offers X1, X2, X3 on two pages;
    rows for X1 and X2 priced "100.50 руб" and "200 руб").  The stock
    list is as expected, but [main] builds its price list against the
    list object that [create_stocks] has just emptied of X1 and X2: the
    price list is empty and no price request is sent.  [upload_prices],
    which fetches its own list, prices both rows. *)
Theorem main_scenario_prices :
  fst (main_try Sim.api 5 "client" "token" (Sim.start Sim.scenario)) =
    Ok ([MkStock "X1" 100; MkStock "X2" 0; MkStock "X3" 0], []) ∧
  Sim.sent_prices (world (snd (main Sim.api 5 (Sim.start Sim.scenario)))) = [] ∧
  fst (upload_prices Sim.api 5 0%nat "client" "token"
         (snd (download_stock Sim.api (Sim.start Sim.scenario)))) =
    Ok [MkPrice "UNKNOWN" "RUB" "X1" "0" "100"; MkPrice "UNKNOWN" "RUB" "X2" "0" "200"].
Proof. repeat split; vm_compute; reflexivity. Qed.

(** * Further properties *)

(** ** create_stocks: which rows count *)

Lemma create_stocks_loop_no_match (ws : list watch) (stocks : list stock_rec)
    (ids : list string) :
  Forall code_prints ws →
  (∀ w, w ∈ ws → code_of w ∉ ids) → create_stocks_loop ws stocks ids = (Ok stocks, ids).
Proof.
  intros Hp. induction Hp as [|w ws Hw _ IH]; intros Hnone; [done|].
  rewrite create_stocks_loop_cons by done.
  rewrite decide_False by (apply Hnone; by left).
  apply IH. intros w' Hw'. apply Hnone. by right.
Qed.

(** X1. When no row carries the code of an offer (an empty spreadsheet, for
    one) and [str] prints the code of every row, [create_stocks] returns
    a zero record for every offer, in catalog order, and removes nothing
    from the list. *)
Theorem create_stocks_no_match_zeroes (ws : list watch) (ids : list string) :
  (∀ w, w ∈ ws → code_prints w ∧ code_of w ∉ ids) →
  create_stocks_on ws ids = (Ok (map zero_stock ids), ids).
Proof.
  intros Hnone. unfold create_stocks_on.
  rewrite (create_stocks_loop_no_match ws [] ids); [done| |].
  - apply Forall_forall. intros w Hw. by apply Hnone.
  - intros w Hw. by apply Hnone.
Qed.

Lemma create_stocks_no_match_zeroes_witness :
  (∀ w, w ∈ [Sim.row (PyStr "Z") (PyStr "abc") PyNone] →
        code_prints w ∧ code_of w ∉ ["A"; "B"]) ∧
  create_stocks_on [Sim.row (PyStr "Z") (PyStr "abc") PyNone] ["A"; "B"]
    = (Ok [MkStock "A" 0; MkStock "B" 0], ["A"; "B"]).
Proof.
  assert (∀ w, w ∈ [Sim.row (PyStr "Z") (PyStr "abc") PyNone] →
               code_prints w ∧ code_of w ∉ ["A"; "B"])
    as Hnone.
  { intros w Hw. apply list_elem_of_singleton in Hw as ->.
    split; [vm_compute; reflexivity|]. vm_compute.
    intros Hin. repeat (apply elem_of_cons in Hin as [Heq|Hin]; [discriminate Heq|]).
    by apply elem_of_nil in Hin. }
  split; [exact Hnone|]. exact (create_stocks_no_match_zeroes _ _ Hnone).
Defined.

Lemma list_remove_first_subseteq (x : string) (l l' : list string) :
  list_remove_first x l = Ok l' → ∀ y, y ∈ l' → y ∈ l.
Proof.
  intros [Hperm _]%list_remove_first_spec y Hy. rewrite Hperm. by right.
Qed.

Lemma create_stocks_loop_foreign (ids0 : list string) (ws : list watch)
    (stocks : list stock_rec) (ids : list string) :
  (∀ w, w ∈ ws → code_of w ∉ ids0 → code_prints w) →
  (∀ x, x ∈ ids → x ∈ ids0) →
  create_stocks_loop ws stocks ids =
    create_stocks_loop (filter (λ w, code_of w ∈ ids0) ws) stocks ids.
Proof.
  revert stocks ids. induction ws as [|w ws IH]; intros stocks ids Hp Hsub; [done|].
  assert (∀ w', w' ∈ ws → code_of w' ∉ ids0 → code_prints w') as Hp'.
  { intros w' Hw'. apply Hp. by right. }
  rewrite filter_cons. destruct (decide (code_of w ∈ ids0)) as [Hin0|Hnin0].
  - cbn [create_stocks_loop].
    destruct (py_str (dict_get w "Код")) as [code| |]; [|done..].
    destruct (decide (code ∈ ids)) as [Hin|Hnin]; [|by apply IH].
    destruct (stock_of w); [|done..].
    destruct (list_remove_first code ids) as [ids1| |] eqn:Hrm; [|done..].
    apply IH; [done|]. intros x Hx. apply Hsub. by eapply list_remove_first_subseteq.
  - rewrite create_stocks_loop_cons by (apply Hp; [by left|done]).
    rewrite decide_False by (intros Hin; by apply Hnin0, Hsub).
    by apply IH.
Qed.

(** X2. Rows whose code is not an offer have no effect on [create_stocks],
    whatever their quantity holds, as long as [str] prints their code:
    dropping them from the inventory changes neither the outcome nor
    the final candidate list. *)
Theorem create_stocks_ignores_foreign_rows (ws : list watch) (ids : list string) :
  (∀ w, w ∈ ws → code_of w ∉ ids → code_prints w) →
  create_stocks_on ws ids = create_stocks_on (filter (λ w, code_of w ∈ ids) ws) ids.
Proof.
  intros Hp. unfold create_stocks_on.
  by rewrite (create_stocks_loop_foreign ids ws [] ids).
Qed.

Lemma create_stocks_ignores_foreign_rows_witness :
  (∀ w, w ∈ [Sim.row (PyInt 7) (PyStr "abc") PyNone; Sim.row (PyStr "A") (PyStr "4") PyNone] →
        code_of w ∉ ["A"] → code_prints w) ∧
  create_stocks_on
    [Sim.row (PyInt 7) (PyStr "abc") PyNone; Sim.row (PyStr "A") (PyStr "4") PyNone] ["A"]
    = create_stocks_on [Sim.row (PyStr "A") (PyStr "4") PyNone] ["A"].
Proof.
  assert (∀ w, w ∈ [Sim.row (PyInt 7) (PyStr "abc") PyNone;
                    Sim.row (PyStr "A") (PyStr "4") PyNone] →
               code_of w ∉ ["A"] → code_prints w) as Hp.
  { intros w Hw _. apply elem_of_cons in Hw as [->|Hw]; [vm_compute; reflexivity|].
    apply list_elem_of_singleton in Hw as ->. vm_compute. reflexivity. }
  split; [exact Hp|].
  rewrite (create_stocks_ignores_foreign_rows _ _ Hp). vm_compute. reflexivity.
Defined.

(** X3. With no identifier listed twice, only the first row of a code
    counts: a later row with a code already seen, which [str] prints,
    is skipped, whatever its quantity holds. *)
Theorem create_stocks_first_row_wins (pre post : list watch) (w : watch)
    (ids : list string) :
  NoDup ids →
  code_prints w →
  code_of w ∈ map code_of pre →
  create_stocks_on (pre ++ w :: post) ids = create_stocks_on (pre ++ post) ids.
Proof.
  intros Hnd Hw Hseen. unfold create_stocks_on. rewrite !create_stocks_loop_app.
  destruct (create_stocks_loop pre [] ids) as [[stocks1| |] ids1] eqn:Hpre; [|done..].
  apply create_stocks_loop_Ok in Hpre as (_ & _ & _ & _ & Hfil).
  rewrite create_stocks_loop_cons by done. rewrite decide_False; [done|].
  rewrite (Hfil Hnd), list_elem_of_filter. tauto.
Qed.

Lemma create_stocks_first_row_wins_witness :
  NoDup ["A"; "B"] ∧
  code_prints (Sim.row (PyStr "A") (PyStr "abc") PyNone) ∧
  code_of (Sim.row (PyStr "A") (PyStr "abc") PyNone)
    ∈ map code_of [Sim.row (PyStr "A") (PyStr "4") PyNone] ∧
  create_stocks_on
    ([Sim.row (PyStr "A") (PyStr "4") PyNone] ++
     Sim.row (PyStr "A") (PyStr "abc") PyNone :: []) ["A"; "B"]
    = (Ok [MkStock "A" 4; MkStock "B" 0], ["B"]).
Proof.
  assert (NoDup ["A"; "B"]) as Hnd
    by (apply (bool_decide_unpack (NoDup ["A"; "B"])); vm_compute; exact I).
  assert (code_of (Sim.row (PyStr "A") (PyStr "abc") PyNone)
            ∈ map code_of [Sim.row (PyStr "A") (PyStr "4") PyNone]) as Hseen
    by (vm_compute; left).
  assert (code_prints (Sim.row (PyStr "A") (PyStr "abc") PyNone)) as Hw
    by (vm_compute; reflexivity).
  split; [exact Hnd|]. split; [exact Hw|]. split; [exact Hseen|].
  rewrite (create_stocks_first_row_wins _ [] _ _ Hnd Hw Hseen).
  vm_compute. reflexivity.
Defined.

(** X4. The list that [create_stocks] returns has exactly one record per
    entry of [offer_ids], whatever the inventory holds: its identifiers
    are a rearrangement of [offer_ids]. *)
Theorem create_stocks_one_record_per_offer (ws : list watch) (ids : list string)
    (stocks : list stock_rec) :
  fst (create_stocks_on ws ids) = Ok stocks →
  map s_offer_id stocks ≡ₚ ids ∧ length stocks = length ids.
Proof.
  intros Hperm%create_stocks_on_ids. split; [done|].
  by rewrite <- (length_map s_offer_id), Hperm.
Qed.

Lemma create_stocks_one_record_per_offer_witness :
  fst (create_stocks_on [Sim.row (PyStr "B") (PyInt 2) PyNone] ["A"; "B"; "A"])
    = Ok [MkStock "B" 2; MkStock "A" 0; MkStock "A" 0] ∧
  length [MkStock "B" 2; MkStock "A" 0; MkStock "A" 0] = length ["A"; "B"; "A"].
Proof.
  assert (fst (create_stocks_on [Sim.row (PyStr "B") (PyInt 2) PyNone] ["A"; "B"; "A"])
            = Ok [MkStock "B" 2; MkStock "A" 0; MkStock "A" 0]) as Hrun
    by (vm_compute; reflexivity).
  split; [exact Hrun|].
  exact (proj2 (create_stocks_one_record_per_offer _ _ _ Hrun)).
Defined.

(** X5. A quantity cell holding the integer [z] and one holding the text of
    [z] give the same stock. *)
Theorem stock_of_integer_cell_as_text (w : watch) (z : Z) :
  stock_of (<["Количество" := PyInt z]> w) =
  stock_of (<["Количество" := PyStr (str_of_Z z)]> w).
Proof.
  unfold stock_of, dict_get. rewrite !lookup_insert_eq.
  cbn [default from_option id]. rewrite py_str_int.
  change (py_str (PyStr (str_of_Z z))) with (Ok (str_of_Z z)).
  cbn [mbind result_bind]. rewrite py_int_str_of_Z.
  destruct (decide (Z.abs z < 10 ^ int_max_str_digits)) as [Hshort|Hlong]; [done|].
  rewrite decide_False by apply str_of_Z_not_many.
  rewrite decide_False; [done|]. rewrite str_of_Z_one. intros ->.
  apply Hlong. change (Z.abs 1) with 1. by apply Z.pow_gt_1.
Qed.

(** ** create_stocks: what a call leaves behind *)

(** X6. When [create_stocks] raises on the quantity of a row, the caller's
    list is not restored: it has lost the identifiers of the rows
    matched before that row, and still holds the identifier of the row
    that failed. *)
Theorem create_stocks_failure_keeps_removals {World} (wr ir : loc)
    (pre post : list watch) (w : watch) (ids ids1 : list string)
    (stocks1 : list stock_rec) (e : exn) (st : state World) :
  heap st !! wr = Some (ListWatch (pre ++ w :: post)) →
  heap st !! ir = Some (ListStr ids) →
  create_stocks_loop pre [] ids = (Ok stocks1, ids1) →
  code_prints w →
  code_of w ∈ ids1 →
  stock_of w = Err e →
  create_stocks wr ir st =
    (Err e, MkState (<[ir := ListStr ids1]> (heap st)) (world st) (stdout st)).
Proof.
  intros Hw Hi Hpre Hcode Hin Hstock.
  rewrite (create_stocks_run wr ir _ ids st Hw Hi).
  unfold create_stocks_on. rewrite create_stocks_loop_app, Hpre.
  rewrite create_stocks_loop_cons by done.
  rewrite decide_True by done. by rewrite Hstock.
Qed.

Lemma create_stocks_failure_keeps_removals_witness :
  heap (Sim.store_of ([Sim.row (PyStr "A") (PyStr "3") PyNone] ++
                      Sim.row (PyStr "B") (PyStr "abc") PyNone :: []) ["A"; "B"; "C"])
    !! 0%nat
    = Some (ListWatch ([Sim.row (PyStr "A") (PyStr "3") PyNone] ++
                       Sim.row (PyStr "B") (PyStr "abc") PyNone :: [])) ∧
  create_stocks_loop [Sim.row (PyStr "A") (PyStr "3") PyNone] [] ["A"; "B"; "C"]
    = (Ok [MkStock "A" 3], ["B"; "C"]) ∧
  code_prints (Sim.row (PyStr "B") (PyStr "abc") PyNone) ∧
  code_of (Sim.row (PyStr "B") (PyStr "abc") PyNone) ∈ ["B"; "C"] ∧
  stock_of (Sim.row (PyStr "B") (PyStr "abc") PyNone) = Err ValueError ∧
  heap (snd (create_stocks 0%nat 1%nat
               (Sim.store_of ([Sim.row (PyStr "A") (PyStr "3") PyNone] ++
                              Sim.row (PyStr "B") (PyStr "abc") PyNone :: [])
                  ["A"; "B"; "C"]))) !! 1%nat
    = Some (ListStr ["B"; "C"]).
Proof.
  set (a := Sim.row (PyStr "A") (PyStr "3") PyNone).
  set (b := Sim.row (PyStr "B") (PyStr "abc") PyNone).
  assert (create_stocks_loop [a] [] ["A"; "B"; "C"] = (Ok [MkStock "A" 3], ["B"; "C"]))
    as Hpre by (vm_compute; reflexivity).
  assert (code_prints b) as Hcode by (vm_compute; reflexivity).
  assert (code_of b ∈ ["B"; "C"]) as Hin by (vm_compute; left).
  assert (stock_of b = Err ValueError) as Hstock by (vm_compute; reflexivity).
  split; [reflexivity|]. split; [exact Hpre|]. split; [exact Hcode|]. split; [exact Hin|].
  split; [exact Hstock|].
  rewrite (create_stocks_failure_keeps_removals 0%nat 1%nat [a] [] b
             ["A"; "B"; "C"] ["B"; "C"] _ ValueError
             (Sim.store_of ([a] ++ b :: []) ["A"; "B"; "C"])
             eq_refl eq_refl Hpre Hcode Hin Hstock).
  reflexivity.
Defined.

(** X7. After a call that returns, on a list without repeated identifiers,
    a second call on the same two objects finds nothing to match: it
    returns only zero records, one per identifier left, and changes
    nothing. *)
Theorem create_stocks_second_call {World} (wr ir : loc) (ws : list watch)
    (ids : list string) (st st' : state World) (stocks : list stock_rec) :
  heap st !! wr = Some (ListWatch ws) →
  heap st !! ir = Some (ListStr ids) →
  NoDup ids →
  create_stocks wr ir st = (Ok stocks, st') →
  create_stocks wr ir st' =
    (Ok (map zero_stock (filter (λ id, id ∉ map code_of ws) ids)), st').
Proof.
  intros Hw Hi Hnd Hrun.
  assert (wr ≠ ir) as Hne by (intros ->; congruence).
  rewrite (create_stocks_store wr ir ws ids st st' stocks Hw Hi Hnd Hrun).
  set (left := filter (λ id, id ∉ map code_of ws) ids).
  rewrite (create_stocks_run wr ir ws left).
  - unfold create_stocks_on. rewrite create_stocks_loop_no_match.
    + cbn. by rewrite list_insert_insert_eq.
    + by eapply create_stocks_prints.
    + intros w Hw0. unfold left. rewrite list_elem_of_filter.
      intros [Hnot _]. apply Hnot. apply list_elem_of_fmap. by exists w.
  - cbn. by rewrite list_lookup_insert_ne.
  - cbn. apply list_lookup_insert_eq. by eapply lookup_lt_Some.
Qed.

Lemma create_stocks_second_call_witness :
  heap (Sim.store_of [Sim.row (PyStr "B") (PyStr "5") PyNone] ["A"; "B"; "C"]) !! 0%nat
    = Some (ListWatch [Sim.row (PyStr "B") (PyStr "5") PyNone]) ∧
  NoDup ["A"; "B"; "C"] ∧
  fst (create_stocks 0%nat 1%nat
         (Sim.store_of [Sim.row (PyStr "B") (PyStr "5") PyNone] ["A"; "B"; "C"]))
    = Ok [MkStock "B" 5; MkStock "A" 0; MkStock "C" 0] ∧
  fst (create_stocks 0%nat 1%nat
         (snd (create_stocks 0%nat 1%nat
                 (Sim.store_of [Sim.row (PyStr "B") (PyStr "5") PyNone] ["A"; "B"; "C"]))))
    = Ok [MkStock "A" 0; MkStock "C" 0].
Proof.
  set (ws := [Sim.row (PyStr "B") (PyStr "5") PyNone]).
  set (st := Sim.store_of ws ["A"; "B"; "C"]).
  assert (NoDup ["A"; "B"; "C"]) as Hnd
    by (apply (bool_decide_unpack (NoDup ["A"; "B"; "C"])); vm_compute; exact I).
  split; [reflexivity|]. split; [exact Hnd|]. split; [vm_compute; reflexivity|].
  destruct (create_stocks 0%nat 1%nat st) as [r st'] eqn:Hrun.
  assert (r = Ok [MkStock "B" 5; MkStock "A" 0; MkStock "C" 0]) as ->
    by (apply (f_equal fst) in Hrun; vm_compute in Hrun; congruence).
  cbn [snd].
  rewrite (create_stocks_second_call 0%nat 1%nat ws ["A"; "B"; "C"] st st' _
             eq_refl eq_refl Hnd Hrun).
  vm_compute. reflexivity.
Defined.

(** ** create_prices *)

Lemma price_conversion_text (s : string) : ∃ r, price_conversion (PyStr s) = Ok r.
Proof.
  destruct (str_split_head "." s) as (pre & rest & Hsplit & _).
  unfold price_conversion. rewrite Hsplit. by eexists.
Qed.

Lemma price_conversion_not_text (v : pyval) :
  (∀ s, v ≠ PyStr s) → price_conversion v = Err AttributeError.
Proof. intros Hv. destruct v as [s| | | |]; [by destruct (Hv s)|done..]. Qed.

Lemma create_prices_loop_Ok (ws : list watch) (prices prices' : list price_rec)
    (ids : list string) :
  create_prices_loop ws prices ids = Ok prices' →
  ∃ added, prices' = prices ++ added ∧
           Forall2 price_of_row (filter (λ w, code_of w ∈ ids) ws) added.
Proof.
  revert prices. induction ws as [|w ws IH]; intros prices Hrun.
  { cbn in Hrun. injection Hrun as <-. exists []. by rewrite app_nil_r. }
  assert (code_prints w) as Hw.
  { cbn [create_prices_loop] in Hrun. unfold code_prints.
    destruct (py_str _) as [code| |] eqn:Hcode; [|done..].
    by rewrite (py_str_Ok _ _ Hcode). }
  rewrite create_prices_loop_cons in Hrun by done. rewrite filter_cons.
  destruct (decide (code_of w ∈ ids)) as [Hin|Hnin]; [|by apply IH].
  destruct (price_conversion (dict_get w "Цена")) as [p| |] eqn:Hp; [|done..].
  cbn in Hrun. destruct (IH _ Hrun) as (added & -> & Hall).
  exists (MkPrice "UNKNOWN" "RUB" (code_of w) "0" p :: added).
  split; [by rewrite <- app_assoc|]. by constructor.
Qed.

(** X8. The list that [create_prices] returns has one record per row whose
    code is in [offer_ids], in row order and with repetitions kept; each
    record carries the code of its row, the converted price of its row
    and the three fixed fields. *)
Theorem create_prices_rows (ws : list watch) (ids : list string)
    (prices : list price_rec) :
  create_prices_on ws ids = Ok prices →
  Forall2 price_of_row (filter (λ w, code_of w ∈ ids) ws) prices.
Proof.
  intros (added & -> & Hall)%create_prices_loop_Ok. exact Hall.
Qed.

Lemma create_prices_rows_witness :
  create_prices_on
    [Sim.row (PyStr "A") PyNone (PyStr "10.5"); Sim.row (PyStr "Z") PyNone PyNone;
     Sim.row (PyStr "A") PyNone (PyStr "7 руб")] ["A"]
    = Ok [MkPrice "UNKNOWN" "RUB" "A" "0" "10"; MkPrice "UNKNOWN" "RUB" "A" "0" "7"] ∧
  length (filter (λ w, code_of w ∈ ["A"])
            [Sim.row (PyStr "A") PyNone (PyStr "10.5"); Sim.row (PyStr "Z") PyNone PyNone;
             Sim.row (PyStr "A") PyNone (PyStr "7 руб")]) = 2%nat.
Proof.
  assert (create_prices_on
            [Sim.row (PyStr "A") PyNone (PyStr "10.5"); Sim.row (PyStr "Z") PyNone PyNone;
             Sim.row (PyStr "A") PyNone (PyStr "7 руб")] ["A"]
          = Ok [MkPrice "UNKNOWN" "RUB" "A" "0" "10"; MkPrice "UNKNOWN" "RUB" "A" "0" "7"])
    as Hrun by (vm_compute; reflexivity).
  split; [exact Hrun|].
  by rewrite (Forall2_length _ _ _ (create_prices_rows _ _ _ Hrun)).
Defined.

Lemma create_prices_loop_outcome (ws : list watch) (prices : list price_rec)
    (ids : list string) :
  Forall code_prints ws →
  (is_Ok (create_prices_loop ws prices ids) = true ↔
     ∀ w, w ∈ ws → code_of w ∈ ids → ∃ s, dict_get w "Цена" = PyStr s) ∧
  (is_Ok (create_prices_loop ws prices ids) = false →
     create_prices_loop ws prices ids = Err AttributeError).
Proof.
  intros Hp. revert prices. induction Hp as [|w ws Hw _ IH]; intros prices.
  { split; [|done]. split; [|done]. intros _ w Hw. by apply elem_of_nil in Hw. }
  rewrite create_prices_loop_cons by done.
  destruct (decide (code_of w ∈ ids)) as [Hin|Hnin].
  - destruct (dict_get w "Цена") as [s|z|f|b|] eqn:Hprice.
    + destruct (price_conversion_text s) as [r ->]. cbn.
      destruct (IH (prices ++ [MkPrice "UNKNOWN" "RUB" (code_of w) "0" r])) as [Hiff Herr].
      split; [|done]. rewrite Hiff. split.
      * intros Hall w' [->|Hw']%elem_of_cons Hc; [by eexists|by apply Hall].
      * intros Hall w' Hw'. apply Hall. by right.
    + cbn. split; [|done]. split; [done|].
      intros Hall. destruct (Hall w) as [s Hs]; [by left|done|congruence].
    + cbn. split; [|done]. split; [done|].
      intros Hall. destruct (Hall w) as [s Hs]; [by left|done|congruence].
    + cbn. split; [|done]. split; [done|].
      intros Hall. destruct (Hall w) as [s Hs]; [by left|done|congruence].
    + cbn. split; [|done]. split; [done|].
      intros Hall. destruct (Hall w) as [s Hs]; [by left|done|congruence].
  - destruct (IH prices) as [Hiff Herr]. split; [|done]. rewrite Hiff. split.
    + intros Hall w' [->|Hw']%elem_of_cons Hc; [done|by apply Hall].
    + intros Hall w' Hw'. apply Hall. by right.
Qed.

(** X9. When [str] prints the code of every row, [create_prices] returns
    exactly when the price of every row whose code is in [offer_ids] is
    text; otherwise it raises [AttributeError].  The price of a row that
    is not matched is never looked at. *)
Theorem create_prices_needs_text_prices (ws : list watch) (ids : list string) :
  Forall code_prints ws →
  (is_Ok (create_prices_on ws ids) = true ↔
     ∀ w, w ∈ ws → code_of w ∈ ids → ∃ s, dict_get w "Цена" = PyStr s) ∧
  (is_Ok (create_prices_on ws ids) = false →
     create_prices_on ws ids = Err AttributeError).
Proof. apply create_prices_loop_outcome. Qed.

Lemma create_prices_needs_text_prices_witness :
  Forall code_prints
    [Sim.row (PyStr "A") PyNone (PyInt 10); Sim.row (PyStr "Z") PyNone PyNone] ∧
  create_prices_on
    [Sim.row (PyStr "A") PyNone (PyInt 10); Sim.row (PyStr "Z") PyNone PyNone] ["A"]
    = Err AttributeError.
Proof.
  assert (Forall code_prints
            [Sim.row (PyStr "A") PyNone (PyInt 10); Sim.row (PyStr "Z") PyNone PyNone])
    as Hp by (repeat constructor).
  split; [exact Hp|].
  apply (proj2 (create_prices_needs_text_prices _ ["A"] Hp)).
  vm_compute. reflexivity.
Defined.

(** ** price_conversion *)

Lemma price_conversion_digits (s : string) :
  all_digits s = true → price_conversion (PyStr s) = Ok s.
Proof.
  intros Hs. unfold price_conversion.
  assert (str_split "." s = [s] ∧ re_sub_non_digits s = s) as [-> ->]; [|done].
  induction s as [|c s IH]; [done|].
  cbn [all_digits] in Hs. apply andb_true_iff in Hs as [Hc Hs].
  destruct (IH Hs) as [Hsplit Hsub]. cbn [str_split re_sub_non_digits].
  rewrite Hsplit, Hsub, Hc.
  destruct (Ascii.eqb_spec c ".") as [->|_]; [by vm_compute in Hc|done].
Qed.

(** X10. [price_conversion] always returns on text, and converting its own
    result again gives the same text. *)
Theorem price_conversion_idempotent (s : string) :
  ∃ r, price_conversion (PyStr s) = Ok r ∧ price_conversion (PyStr r) = Ok r.
Proof.
  destruct (str_split_head "." s) as (pre & rest & Hsplit & _).
  exists (keep_digits pre). split.
  - unfold price_conversion. by rewrite Hsplit, re_sub_non_digits_keep.
  - apply price_conversion_digits, keep_digits_all_digits.
Qed.

(** ** divide: how many requests *)

(** X11. For a size [n ≥ 1], [divide] yields [len(lst)] over [n] chunks,
    rounded up; a non-empty list that fits in one chunk is yielded
    whole. *)
Theorem divide_chunk_count {A} (lst : list A) (n : Z) :
  1 ≤ n →
  (∃ chunks, divide lst n = Ok chunks ∧ len chunks = (len lst + n - 1) `div` n) ∧
  (1 ≤ len lst ≤ n → divide lst n = Ok [lst]).
Proof.
  intros Hn. rewrite divide_pos by done. split.
  - eexists. split; [done|]. unfold len at 1. rewrite length_map, length_seq.
    pose proof (Nat2Z.is_nonneg (length lst)) as Hlen. fold (len lst) in Hlen.
    destruct (Z.ltb_spec 0 (len lst)) as [Hpos|Hzero].
    + pose proof (Z.div_pos (len lst - 1) n). rewrite Z2Nat.id by lia.
      replace (len lst + n - 1) with (len lst - 1 + 1 * n) by lia.
      rewrite Z.div_add by lia. done.
    + replace (len lst) with 0 by lia. rewrite Z.div_small; [done|lia].
  - intros [Hlo Hhi]. rewrite (proj2 (Z.ltb_lt 0 (len lst))) by lia.
    rewrite Z.div_small by lia. change (Z.to_nat (0 + 1)) with 1%nat.
    cbn [seq map]. rewrite Nat.mul_0_l, drop_0, take_ge; [done|].
    unfold len in Hhi. lia.
Qed.

Lemma divide_chunk_count_witness :
  1 ≤ 100 ∧
  (∃ chunks, divide (seqZ 1 250) 100 = Ok chunks ∧ len chunks = 3) ∧
  divide [4; 5; 6] 100 = Ok [[4; 5; 6]].
Proof.
  destruct (divide_chunk_count (seqZ 1 250) 100 ltac:(lia)) as [(chunks & Hdiv & Hlen) _].
  destruct (divide_chunk_count [4; 5; 6] 100 ltac:(lia)) as [_ Hone].
  split; [lia|]. split.
  - exists chunks. split; [exact Hdiv|]. rewrite Hlen. by vm_compute.
  - apply Hone. by vm_compute.
Defined.

(** ** get_offer_ids: when it does not return *)

Section PagerFailures.
Context {World : Type} (api : services World).
Implicit Types (st : state World) (ps : list page) (pl : list product).

Lemma total_never_met_tail pl p ps :
  total_never_met pl (p :: ps) →
  page_total p ≠ len (pl ++ page_items p) ∧ total_never_met (pl ++ page_items p) ps.
Proof.
  intros Hnever. split.
  - specialize (Hnever 0%nat p eq_refl). unfold running_count in Hnever.
    cbn in Hnever. by rewrite app_nil_r in Hnever.
  - intros j q Hq. specialize (Hnever (S j) q Hq). unfold running_count in *.
    cbn in Hnever. by rewrite <- app_assoc.
Qed.

Lemma cursor_after_cons (start : string) p ps :
  cursor_after start (p :: ps) = cursor_after (page_last_id p) ps.
Proof.
  unfold cursor_after. destruct ps as [|q ps]; [done|]. rewrite last_cons_cons.
  destruct (last (q :: ps)) eqn:Hlast; [done|]. by apply last_None in Hlast.
Qed.

Lemma get_offer_ids_loop_running n :
  ∀ last pl c s st ps w',
    fetch_pages api n last c s (world st) = (Ok ps, w') →
    total_never_met pl ps →
    get_offer_ids_loop api n last pl c s st =
      (Fuel, MkState (heap st) w' (stdout st)).
Proof.
  induction n as [|n IH]; intros last pl c s st ps w' Hfetch Hnever.
  { cbn in Hfetch. injection Hfetch as _ <-. by destruct st. }
  rewrite fetch_pages_S in Hfetch.
  destruct (post_product_list api last c s (world st)) as [[p| |] w1] eqn:Hpost; [|done..].
  destruct (fetch_pages api n (page_last_id p) c s w1) as [[ps'| |] w2] eqn:Hrest; [|done..].
  cbn in Hfetch. injection Hfetch as <- <-.
  apply total_never_met_tail in Hnever as [Hne Hnever].
  cbn [get_offer_ids_loop]. unfold mbind, M_bind, get_product_list.
  rewrite call_run, Hpost. cbn [fst snd]. rewrite (proj2 (Z.eqb_neq _ _) Hne).
  by rewrite (IH (page_last_id p) (pl ++ page_items p) c s
                (MkState (heap st) w1 (stdout st)) ps' w2 Hrest Hnever).
Qed.

Lemma get_offer_ids_loop_raises k :
  ∀ last pl c s st ps w1 w2 e,
    fetch_pages api k last c s (world st) = (Ok ps, w1) →
    total_never_met pl ps →
    post_product_list api (cursor_after last ps) c s w1 = (Err e, w2) →
    ∀ fuel, (k < fuel)%nat →
      get_offer_ids_loop api fuel last pl c s st =
        (Err e, MkState (heap st) w2 (stdout st)).
Proof.
  induction k as [|k IH]; intros last pl c s st ps w1 w2 e Hfetch Hnever Hfail fuel Hfuel.
  - cbn in Hfetch. injection Hfetch as <- <-. cbn in Hfail.
    destruct fuel as [|fuel]; [lia|].
    cbn [get_offer_ids_loop]. unfold mbind, M_bind, get_product_list.
    by rewrite call_run, Hfail.
  - rewrite fetch_pages_S in Hfetch.
    destruct (post_product_list api last c s (world st)) as [[p| |] w0] eqn:Hpost; [|done..].
    destruct (fetch_pages api k (page_last_id p) c s w0) as [[ps'| |] w] eqn:Hrest; [|done..].
    cbn in Hfetch. injection Hfetch as <- Hw. subst w.
    apply total_never_met_tail in Hnever as [Hne Hnever].
    rewrite cursor_after_cons in Hfail.
    destruct fuel as [|fuel]; [lia|].
    cbn [get_offer_ids_loop]. unfold mbind, M_bind, get_product_list.
    rewrite call_run, Hpost. cbn [fst snd]. rewrite (proj2 (Z.eqb_neq _ _) Hne).
    apply (IH (page_last_id p) (pl ++ page_items p) c s
             (MkState (heap st) w0 (stdout st)) ps' w1 w2 e Hrest Hnever Hfail). lia.
Qed.

End PagerFailures.

(** X12. As long as no page brings the accumulated count to the total it
    reports (the count overshoots, say), [get_offer_ids] keeps
    requesting: after [n] such pages it has made [n] requests and is
    still in its loop, with nothing allocated. *)
Theorem get_offer_ids_keeps_requesting {World} (api : services World) (n : nat)
    (client_id seller_token : string) (st : state World) (ps : list page) (w' : World) :
  fetch_pages api n "" client_id seller_token (world st) = (Ok ps, w') →
  total_never_met [] ps →
  get_offer_ids api n client_id seller_token st =
    (Fuel, MkState (heap st) w' (stdout st)).
Proof.
  intros Hfetch Hnever. unfold get_offer_ids, mbind, M_bind.
  by rewrite (get_offer_ids_loop_running api n "" [] _ _ st ps w' Hfetch Hnever).
Qed.

Lemma get_offer_ids_keeps_requesting_witness :
  fetch_pages Sim.api 3 "" "client" "token" stuck_world
    = (Ok [MkPage [MkProduct "X1"] 0 ""; MkPage [MkProduct "X1"] 0 "";
           MkPage [MkProduct "X1"] 0 ""], stuck_world) ∧
  total_never_met [] [MkPage [MkProduct "X1"] 0 ""; MkPage [MkProduct "X1"] 0 "";
                      MkPage [MkProduct "X1"] 0 ""] ∧
  get_offer_ids Sim.api 3 "client" "token" (Sim.start stuck_world)
    = (Fuel, Sim.start stuck_world).
Proof.
  set (ps := [MkPage [MkProduct "X1"] 0 ""; MkPage [MkProduct "X1"] 0 "";
              MkPage [MkProduct "X1"] 0 ""]).
  assert (fetch_pages Sim.api 3 "" "client" "token" stuck_world = (Ok ps, stuck_world))
    as Hfetch by (vm_compute; reflexivity).
  assert (total_never_met [] ps) as Hnever.
  { intros [|[|[|j]]] p; intros [= <-]; vm_compute; discriminate. }
  split; [exact Hfetch|]. split; [exact Hnever|].
  exact (get_offer_ids_keeps_requesting Sim.api 3 "client" "token" (Sim.start stuck_world)
           ps stuck_world Hfetch Hnever).
Defined.

(** X13. When a listing request fails before the total has been met,
    [get_offer_ids] raises the error of that request: the pages already
    fetched are dropped and no list is allocated. *)
Theorem get_offer_ids_raises {World} (api : services World) (k : nat)
    (client_id seller_token : string) (st : state World) (ps : list page)
    (w1 w2 : World) (e : exn) :
  fetch_pages api k "" client_id seller_token (world st) = (Ok ps, w1) →
  total_never_met [] ps →
  post_product_list api (cursor_after "" ps) client_id seller_token w1 = (Err e, w2) →
  ∀ fuel, (k < fuel)%nat →
    get_offer_ids api fuel client_id seller_token st =
      (Err e, MkState (heap st) w2 (stdout st)).
Proof.
  intros Hfetch Hnever Hfail fuel Hfuel. unfold get_offer_ids, mbind, M_bind.
  by rewrite (get_offer_ids_loop_raises api k "" [] _ _ st ps w1 w2 e
                Hfetch Hnever Hfail fuel Hfuel).
Qed.

Lemma get_offer_ids_raises_witness :
  fetch_pages Sim.api 1 "" "client" "token" broken_world
    = (Ok [MkPage [MkProduct "X1"] 2 "gone"], broken_world) ∧
  total_never_met [] [MkPage [MkProduct "X1"] 2 "gone"] ∧
  post_product_list Sim.api (cursor_after "" [MkPage [MkProduct "X1"] 2 "gone"])
    "client" "token" broken_world = (Err HTTPError, broken_world) ∧
  get_offer_ids Sim.api 5 "client" "token" (Sim.start broken_world)
    = (Err HTTPError, Sim.start broken_world).
Proof.
  set (ps := [MkPage [MkProduct "X1"] 2 "gone"]).
  assert (fetch_pages Sim.api 1 "" "client" "token" broken_world = (Ok ps, broken_world))
    as Hfetch by (vm_compute; reflexivity).
  assert (total_never_met [] ps) as Hnever.
  { intros [|j] p; intros [= <-]; vm_compute; discriminate. }
  assert (post_product_list Sim.api (cursor_after "" ps) "client" "token" broken_world
            = (Err HTTPError, broken_world)) as Hfail by (vm_compute; reflexivity).
  split; [exact Hfetch|]. split; [exact Hnever|]. split; [exact Hfail|].
  exact (get_offer_ids_raises Sim.api 1 "client" "token" (Sim.start broken_world)
           ps broken_world broken_world HTTPError Hfetch Hnever Hfail 5%nat ltac:(lia)).
Defined.

(** ** Uploading in chunks *)

Section Chunks.
Context {World : Type}.
Implicit Types (st : state World).

Lemma for_each_app {A} (f : A → M World unit) (l1 l2 : list A) st :
  for_each f (l1 ++ l2) st =
    match for_each f l1 st with
    | (Ok _, st1) => for_each f l2 st1
    | (Err e, st1) => (Err e, st1)
    | (Fuel, st1) => (Fuel, st1)
    end.
Proof.
  revert st. induction l1 as [|x l1 IH]; intros st; [done|].
  cbn [app for_each]. unfold mbind, M_bind.
  destruct (f x st) as [[[]| |] st0]; [|done..]. apply IH.
Qed.

End Chunks.

(** X14. Chunks are sent one by one with no rollback: when the request for a
    chunk fails, the loop raises that error, the chunks before it stay
    sent and the chunks after it are never sent. *)
Theorem update_stocks_no_rollback {World} (api : services World)
    (sent rest : list (list stock_rec)) (failing : list stock_rec)
    (client_id seller_token : string) (st st1 st2 : state World) (e : exn) :
  for_each (λ some_stock, update_stocks api some_stock client_id seller_token) sent st
    = (Ok (), st1) →
  update_stocks api failing client_id seller_token st1 = (Err e, st2) →
  for_each (λ some_stock, update_stocks api some_stock client_id seller_token)
    (sent ++ failing :: rest) st = (Err e, st2).
Proof.
  intros Hsent Hfail. rewrite for_each_app, Hsent.
  cbn [for_each]. unfold mbind, M_bind. by rewrite Hfail.
Qed.

Lemma update_stocks_no_rollback_witness :
  for_each (λ some_stock, update_stocks refusing_api some_stock "client" "token")
    [[MkStock "A" 1]] (Sim.start Sim.scenario)
    = (Ok (), snd (update_stocks refusing_api [MkStock "A" 1] "client" "token"
                     (Sim.start Sim.scenario))) ∧
  fst (update_stocks refusing_api [MkStock "B" 2] "client" "token"
         (snd (update_stocks refusing_api [MkStock "A" 1] "client" "token"
                 (Sim.start Sim.scenario)))) = Err HTTPError ∧
  Sim.sent_stocks
    (world (snd (for_each
                   (λ some_stock, update_stocks refusing_api some_stock "client" "token")
                   ([[MkStock "A" 1]] ++ [MkStock "B" 2] :: [[MkStock "C" 3]])
                   (Sim.start Sim.scenario))))
    = [[MkStock "A" 1]].
Proof.
  set (st1 := snd (update_stocks refusing_api [MkStock "A" 1] "client" "token"
                     (Sim.start Sim.scenario))).
  set (st2 := snd (update_stocks refusing_api [MkStock "B" 2] "client" "token" st1)).
  assert (for_each (λ some_stock, update_stocks refusing_api some_stock "client" "token")
            [[MkStock "A" 1]] (Sim.start Sim.scenario) = (Ok (), st1)) as Hsent
    by (vm_compute; reflexivity).
  assert (update_stocks refusing_api [MkStock "B" 2] "client" "token" st1
            = (Err HTTPError, st2)) as Hfail by (vm_compute; reflexivity).
  split; [exact Hsent|]. split; [vm_compute; reflexivity|].
  rewrite (update_stocks_no_rollback refusing_api [[MkStock "A" 1]] [[MkStock "C" 3]]
             [MkStock "B" 2] "client" "token" _ st1 st2 HTTPError Hsent Hfail).
  vm_compute. reflexivity.
Defined.

(** ** upload_prices *)

(** X15. When the catalog fetch, the transformation and every chunk upload
    succeed, [upload_prices] returns the price list built from the
    inventory and a newly fetched list of identifiers, sent in chunks of
    1000; the fetched list is left whole and the store only gains that
    list. *)
Theorem upload_prices_returns {World} (api : services World) (fuel : nat) (wr ir : loc)
    (client_id seller_token : string) (ws : list watch) (ids : list string)
    (st st1 st2 : state World) (prices : list price_rec)
    (chunks : list (list price_rec)) :
  heap st !! wr = Some (ListWatch ws) →
  get_offer_ids api fuel client_id seller_token st = (Ok ir, st1) →
  heap st1 !! ir = Some (ListStr ids) →
  create_prices_on ws ids = Ok prices →
  divide prices 1000 = Ok chunks →
  for_each (λ some_price, update_price api some_price client_id seller_token) chunks st1
    = (Ok (), st2) →
  upload_prices api fuel wr client_id seller_token st = (Ok prices, st2) ∧
  heap st2 = heap st ++ [ListStr ids].
Proof.
  intros Hw Hids Hi Hprices Hdiv Hsend.
  destruct (get_offer_ids_fresh api _ _ _ _ _ _ Hids) as (Hir & _ & ids' & Hheap).
  assert (heap st1 !! wr = Some (ListWatch ws)) as Hw1.
  { rewrite Hheap. by apply lookup_app_l_Some. }
  split.
  - unfold upload_prices. run_bind. rewrite Hids.
    run_bind. rewrite (create_prices_run wr ir ws ids st1 Hw1 Hi), Hprices.
    run_bind. unfold lift at 1. rewrite Hdiv.
    run_bind. by rewrite Hsend.
  - pose proof (for_each_call_frame
                  (λ x, post_prices api x client_id seller_token) chunks st1) as [Hh _].
    change (for_each (λ x, call (post_prices api x client_id seller_token)) chunks st1)
      with (for_each (λ x, update_price api x client_id seller_token) chunks st1) in Hh.
    rewrite Hsend in Hh. cbn [snd] in Hh. rewrite Hh, Hheap. do 2 f_equal.
    rewrite Hheap, Hir, list_lookup_middle in Hi by done. congruence.
Qed.

Lemma upload_prices_returns_witness :
  heap Sim.loaded !! 0%nat = Some (ListWatch (Sim.remnants Sim.scenario)) ∧
  get_offer_ids Sim.api 5 "client" "token" Sim.loaded = (Ok 1%nat, Sim.fetched) ∧
  heap Sim.fetched !! 1%nat = Some (ListStr ["X1"; "X2"; "X3"]) ∧
  create_prices_on (Sim.remnants Sim.scenario) ["X1"; "X2"; "X3"]
    = Ok [MkPrice "UNKNOWN" "RUB" "X1" "0" "100"; MkPrice "UNKNOWN" "RUB" "X2" "0" "200"] ∧
  upload_prices Sim.api 5 0%nat "client" "token" Sim.loaded
    = (Ok [MkPrice "UNKNOWN" "RUB" "X1" "0" "100"; MkPrice "UNKNOWN" "RUB" "X2" "0" "200"],
       snd (upload_prices Sim.api 5 0%nat "client" "token" Sim.loaded)).
Proof.
  set (prices := [MkPrice "UNKNOWN" "RUB" "X1" "0" "100";
                  MkPrice "UNKNOWN" "RUB" "X2" "0" "200"]).
  set (send := for_each (λ some_price, update_price Sim.api some_price "client" "token")
                 [prices] Sim.fetched).
  assert (heap Sim.loaded !! 0%nat = Some (ListWatch (Sim.remnants Sim.scenario))) as Hw
    by (vm_compute; reflexivity).
  assert (get_offer_ids Sim.api 5 "client" "token" Sim.loaded = (Ok 1%nat, Sim.fetched))
    as Hids by (vm_compute; reflexivity).
  assert (heap Sim.fetched !! 1%nat = Some (ListStr ["X1"; "X2"; "X3"])) as Hi
    by (vm_compute; reflexivity).
  assert (create_prices_on (Sim.remnants Sim.scenario) ["X1"; "X2"; "X3"] = Ok prices)
    as Hprices by (vm_compute; reflexivity).
  assert (divide prices 1000 = Ok [prices]) as Hdiv by (vm_compute; reflexivity).
  assert (send = (Ok (), snd send)) as Hsend by (vm_compute; reflexivity).
  repeat (split; [assumption|]).
  destruct (upload_prices_returns Sim.api 5 0%nat 1%nat "client" "token" _ _
              Sim.loaded Sim.fetched (snd send) prices [prices]
              Hw Hids Hi Hprices Hdiv Hsend) as [Hup _].
  by rewrite Hup.
Defined.

(** ** main *)

(** X16. Once the two settings are read, [main] returns normally whatever
    happens inside its [try]: an exception raised there is not raised
    again, exactly one line is printed for it, and the effects made
    before it stay; without an exception nothing is printed. *)
Theorem main_returns_normally {World} (api : services World) (fuel : nat)
    (st st1 : state World) (seller_token client_id : string) (w1 w2 : World)
    (r : result (list stock_rec * list price_rec)) :
  env_str api "SELLER_TOKEN" (world st) = (Ok seller_token, w1) →
  env_str api "CLIENT_ID" w1 = (Ok client_id, w2) →
  main_try api fuel client_id seller_token (MkState (heap st) w2 (stdout st)) = (r, st1) →
  r ≠ Fuel →
  ∃ lines,
    main api fuel st = (Ok (), MkState (heap st1) (world st1) (stdout st1 ++ lines)) ∧
    (is_Ok r = true → lines = []) ∧
    (is_Ok r = false → length lines = 1%nat).
Proof.
  intros Htok Hcid Htry Hfuel. unfold main. rewrite Htok, Hcid, Htry.
  destruct r as [v|e|]; [| |done].
  - exists []. rewrite app_nil_r. by destruct st1.
  - unfold main_except. destruct e; eexists; (split; [reflexivity|]); by split.
Qed.

Lemma main_returns_normally_witness :
  env_str Sim.api "SELLER_TOKEN" (world (Sim.start broken_world)) = (Ok "token", broken_world) ∧
  env_str Sim.api "CLIENT_ID" broken_world = (Ok "client", broken_world) ∧
  main_try Sim.api 5 "client" "token" (Sim.start broken_world)
    = (Err HTTPError, Sim.start broken_world) ∧
  fst (main Sim.api 5 (Sim.start broken_world)) = Ok () ∧
  length (stdout (snd (main Sim.api 5 (Sim.start broken_world)))) = 1%nat.
Proof.
  assert (env_str Sim.api "SELLER_TOKEN" (world (Sim.start broken_world))
            = (Ok "token", broken_world)) as Htok by (vm_compute; reflexivity).
  assert (env_str Sim.api "CLIENT_ID" broken_world = (Ok "client", broken_world)) as Hcid
    by (vm_compute; reflexivity).
  assert (main_try Sim.api 5 "client" "token" (Sim.start broken_world)
            = (Err HTTPError, Sim.start broken_world)) as Htry by (vm_compute; reflexivity).
  split; [exact Htok|]. split; [exact Hcid|]. split; [exact Htry|].
  destruct (main_returns_normally Sim.api 5 (Sim.start broken_world) _ _ _ _ _ _
              Htok Hcid Htry ltac:(discriminate)) as (lines & Hmain & _ & Hone).
  rewrite Hmain. split; [reflexivity|]. exact (Hone eq_refl).
Defined.

Lemma main_try_prices_empty_witness :
  get_offer_ids Sim.api 5 "client" "token" (Sim.start Sim.scenario)
    = (Ok 0%nat, MkState [ListStr ["X1"; "X2"; "X3"]] Sim.scenario []) ∧
  NoDup ["X1"; "X2"; "X3"] ∧
  is_Ok (fst (main_try Sim.api 5 "client" "token" (Sim.start Sim.scenario))) = true ∧
  ∀ stocks prices st',
    main_try Sim.api 5 "client" "token" (Sim.start Sim.scenario)
      = (Ok (stocks, prices), st') → prices = [].
Proof.
  assert (get_offer_ids Sim.api 5 "client" "token" (Sim.start Sim.scenario)
            = (Ok 0%nat, MkState [ListStr ["X1"; "X2"; "X3"]] Sim.scenario [])) as Hids
    by (vm_compute; reflexivity).
  assert (NoDup ["X1"; "X2"; "X3"]) as Hnd
    by (apply (bool_decide_unpack (NoDup ["X1"; "X2"; "X3"])); vm_compute; exact I).
  split; [exact Hids|]. split; [exact Hnd|]. split; [vm_compute; reflexivity|].
  intros stocks prices st' Hmain.
  exact (main_try_prices_empty Sim.api 5 "client" "token" _ _ st' 0%nat _ stocks prices
           Hids eq_refl Hnd Hmain).
Defined.
